(** * Complexity-Scripts: the complexity scorer and the record enricher

    A shallow embedding of [Complexity/Complex-comp.py] (single-field
    variant) and [Complexity/.ipynb_checkpoints/Complex-Sharegpt-checkpoint.py]
    (multi-turn variant), and the properties of the scoring heuristic and of
    the per-record filter.

    Python values that flow through the scripts are the values [json.loads]
    produces: they are modelled by [value].  A [dict] is a finite map with
    string keys, a [list] is a list, an [int] is an unbounded integer.  A
    raised exception is the [Raise] case of [result]. *)

From Stdlib Require Import ZArith String List.
From Stdlib Require Import Floats.SpecFloat.
From stdpp Require Import base decidable option list strings gmap fin_maps pretty.

Set Warnings "-register-all".
Local Open Scope string_scope.
Local Open Scope list_scope.
Local Open Scope Z_scope.

(** ** Python values and exceptions *)

Module Py.

(** What [json.loads] returns: [None], [bool], [int], [float], [str],
    [list] and [dict].  A float keeps its IEEE-754 class, which is all the
    scripts look at (its truth value). *)
Inductive value : Type :=
  | VNone
  | VBool (b : bool)
  | VInt (z : Z)
  | VFloat (f : spec_float)
  | VStr (s : string)
  | VList (l : list value)
  | VDict (m : gmap string value).

(** The exceptions the scripts can meet.  [AnnotatorError] stands for
    whatever the spaCy pipeline raises on an input it rejects. *)
Inductive exn : Type :=
  | KeyError (k : string)
  | TypeError
  | AnnotatorError.

Inductive result (A : Type) : Type :=
  | Ok (a : A)
  | Raise (e : exn).
Arguments Ok {A} a.
Arguments Raise {A} e.

(** Sequencing: an exception in the first step is the outcome of the whole. *)
#[global] Instance result_ret : MRet result := fun A a => Ok a.
#[global] Instance result_bind : MBind result := fun A B k r =>
  match r with
  | Ok a => k a
  | Raise e => Raise e
  end.

(** [bool(v)]: Python's truth value of a JSON value. *)
Definition truthy (v : value) : bool :=
  match v with
  | VNone => false
  | VBool b => b
  | VInt z => negb (z =? 0)
  | VFloat (S754_zero _) => false
  | VFloat _ => true
  | VStr s => negb (String.eqb s EmptyString)
  | VList l => match l with [] => false | _ => true end
  | VDict m => negb (bool_decide (m = ∅))
  end.

(** [v[k]] for a string key [k]: only a dict can be subscripted by a
    string, and a missing key raises [KeyError]. *)
Definition getitem (v : value) (k : string) : result value :=
  match v with
  | VDict m => match m !! k with
               | Some x => Ok x
               | None => Raise (KeyError k)
               end
  | _ => Raise TypeError
  end.

(** [v[k] = x] for a string key [k]. *)
Definition setitem (v : value) (k : string) (x : value) : result value :=
  match v with
  | VDict m => Ok (VDict (<[k := x]> m))
  | _ => Raise TypeError
  end.

End Py.

Import Py.

(** ** The complexity scorer

    [analyze_complexity] is the same text, line for line, in both scripts. *)

Module Scorer.

(** A spaCy token, as far as the scorer reads it. *)
Record Token : Type := mkToken {
  tag_ : string;
  dep_ : string
}.

(** A sentence ([Span]) iterates over its tokens; [doc.sents] iterates over
    the sentences. *)
Abbreviation Sentence := (list Token) (only parsing).
Abbreviation Doc := (list (list Token)) (only parsing).

Definition MAX_PARTICIPLES : Z := 2.
Definition MAX_NESTED_CLAUSES : Z := 2.

(** The [analysis] dict.  Its key set is fixed by the literal that creates
    it: the function only assigns to existing keys and appends to
    [reasons].  It is a record here, and [analysis_dict] below gives the
    dict that is returned. *)
Record Analysis : Type := mkAnalysis {
  has_passive_voice : bool;
  max_nested_clauses : Z;
  longest_sentence : Z;
  num_participle_phrases : Z;
  num_sentences : Z;
  is_complex : bool;
  reasons : list string;
  score : Z
}.

Definition analysis_dict (a : Analysis) : gmap string value :=
  <["has_passive_voice" := VBool (has_passive_voice a)]>
  (<["max_nested_clauses" := VInt (max_nested_clauses a)]>
  (<["longest_sentence" := VInt (longest_sentence a)]>
  (<["num_participle_phrases" := VInt (num_participle_phrases a)]>
  (<["num_sentences" := VInt (num_sentences a)]>
  (<["is_complex" := VBool (is_complex a)]>
  (<["reasons" := VList (VStr <$> reasons a)]>
  (<["score" := VInt (score a)]> ∅))))))).

(** [x in [s1, ..., sn]] on strings. *)
Definition str_in (x : string) (l : list string) : bool :=
  existsb (String.eqb x) l.

Definition is_passive (t : Token) : bool :=
  str_in (dep_ t) ["nsubjpass"; "auxpass"].

Definition is_participle (t : Token) : bool :=
  str_in (tag_ t) ["VBG"; "VBN"] && str_in (dep_ t) ["ROOT"; "advcl"; "acl"].

Definition is_clause (t : Token) : bool :=
  str_in (dep_ t) ["ccomp"; "xcomp"; "advcl"; "relcl"].

(** [sum(1 for token in sent if p(token))] *)
Definition count_if (p : Token -> bool) (sent : Sentence) : Z :=
  Z.of_nat (length (filter (fun t => p t = true) sent)).

Definition passive_reason : string := "Contains passive voice".

Definition participle_reason (n : Z) : string :=
  "Too many participle phrases (" +:+ pretty n +:+ ") in one sentence".

Definition clause_reason (n : Z) : string :=
  "Deeply nested clauses (" +:+ pretty n +:+ ") in one sentence".

(** Lines 32-34: append the reason, set the flag, add 1 to the score. *)
Definition mark_passive (a : Analysis) : Analysis :=
  {| has_passive_voice := true;
     max_nested_clauses := max_nested_clauses a;
     longest_sentence := longest_sentence a;
     num_participle_phrases := num_participle_phrases a;
     num_sentences := num_sentences a;
     is_complex := is_complex a;
     reasons := reasons a ++ [passive_reason];
     score := score a + 1 |}.

(** The inner [for token in sent] loop: it stops ([break]) at the first
    passive marker of the sentence, and records it only if no earlier
    sentence did. *)
Fixpoint scan_passive (a : Analysis) (sent : Sentence) : Analysis :=
  match sent with
  | [] => a
  | token :: rest =>
      if is_passive token then
        if negb (has_passive_voice a) then mark_passive a else a
      else scan_passive a rest
  end.

(** The running maxima of one sentence. *)
Definition update_maxima (a : Analysis) (sent : Sentence)
    (sent_participles sent_clauses : Z) : Analysis :=
  {| has_passive_voice := has_passive_voice a;
     max_nested_clauses := Z.max (max_nested_clauses a) sent_clauses;
     longest_sentence := Z.max (longest_sentence a) (Z.of_nat (length sent));
     num_participle_phrases := Z.max (num_participle_phrases a) sent_participles;
     num_sentences := num_sentences a;
     is_complex := is_complex a;
     reasons := reasons a;
     score := score a |}.

(** [reasons.append(r); score += n] *)
Definition penalize (a : Analysis) (r : string) (n : Z) : Analysis :=
  {| has_passive_voice := has_passive_voice a;
     max_nested_clauses := max_nested_clauses a;
     longest_sentence := longest_sentence a;
     num_participle_phrases := num_participle_phrases a;
     num_sentences := num_sentences a;
     is_complex := is_complex a;
     reasons := reasons a ++ [r];
     score := score a + n |}.

(** The body of [for sent in doc.sents]. *)
Definition sentence_step (a : Analysis) (sent : Sentence) : Analysis :=
  let a1 := scan_passive a sent in
  let sent_participles := count_if is_participle sent in
  let sent_clauses := count_if is_clause sent in
  let a2 := update_maxima a1 sent sent_participles sent_clauses in
  let a3 :=
    if sent_participles >? MAX_PARTICIPLES then
      penalize a2 (participle_reason sent_participles)
        (sent_participles - MAX_PARTICIPLES)
    else a2 in
  if sent_clauses >? MAX_NESTED_CLAUSES then
    penalize a3 (clause_reason sent_clauses)
      (sent_clauses - MAX_NESTED_CLAUSES)
  else a3.

(** The dict literal that starts the analysis. *)
Definition initial_analysis (doc : Doc) : Analysis :=
  {| has_passive_voice := false;
     max_nested_clauses := 0;
     longest_sentence := 0;
     num_participle_phrases := 0;
     num_sentences := Z.of_nat (length doc);
     is_complex := false;
     reasons := [];
     score := 0 |}.

(** [analysis["is_complex"] = analysis["score"] > 0] *)
Definition set_is_complex (a : Analysis) : Analysis :=
  {| has_passive_voice := has_passive_voice a;
     max_nested_clauses := max_nested_clauses a;
     longest_sentence := longest_sentence a;
     num_participle_phrases := num_participle_phrases a;
     num_sentences := num_sentences a;
     is_complex := score a >? 0;
     reasons := reasons a;
     score := score a |}.

(** Everything after [doc = nlp(text)]. *)
Definition analyze_doc (doc : Doc) : Analysis :=
  set_is_complex (fold_left sentence_step doc (initial_analysis doc)).

Section WithAnnotator.

(** The spaCy pipeline [nlp]: it is given whatever object the caller
    passes and returns the sentences of the parsed document, or raises. *)
Variable nlp : value -> result Doc.

Definition analyze_complexity (text : value) : result Analysis :=
  doc ← nlp text;
  Ok (analyze_doc doc).

End WithAnnotator.

End Scorer.

(** ** Single-field variant: [Complex-comp.py]

    [process_line] is given the record that [json.loads] made of the input
    line, a dict, and the filter flag.  It returns the record that
    [json.dumps] writes, or [None] when the record is dropped. *)

Module SingleField.

Import Scorer.

Definition COMPLEXITY_THRESHOLD : Z := 128.
Definition ANALYZE_FIELD : string := "text".

(** The dict literal of the [else] branch. *)
Definition missing_field_analysis : gmap string value :=
  <["is_complex" := VBool false]>
  (<["reasons" := VList [VStr ("MISSING FIELD " +:+ ANALYZE_FIELD)]]>
  (<["has_passive_voice" := VBool false]>
  (<["max_nested_clauses" := VInt 0]>
  (<["longest_sentence" := VInt 0]>
  (<["num_participle_phrases" := VInt 0]>
  (<["score" := VInt 0]> ∅)))))).

Section WithAnnotator.

Variable nlp : value -> result Doc.

(** Lines 60-73: the embedded analysis and [complexity_score]. *)
Definition embed_analysis (obj : gmap string value)
    : result (gmap string value * Z) :=
  match obj !! ANALYZE_FIELD with
  | Some text =>
      if truthy text then
        a ← analyze_complexity nlp text;
        Ok (<["complexity_analysis" := VDict (analysis_dict a)]> obj, score a)
      else
        Ok (<["complexity_analysis" := VDict missing_field_analysis]> obj, 0)
  | None =>
      Ok (<["complexity_analysis" := VDict missing_field_analysis]> obj, 0)
  end.

(** Lines 75-76: the two record-level fields. *)
Definition set_totals (obj : gmap string value) (complexity_score : Z)
    : gmap string value :=
  <["is_complex" := VBool (complexity_score >? COMPLEXITY_THRESHOLD)]>
  (<["total_complexity_score" := VInt complexity_score]> obj).

Definition process_line (obj : gmap string value) (filter_out_complex : bool)
    : result (option (gmap string value)) :=
  '(obj1, complexity_score) ← embed_analysis obj;
  let obj2 := set_totals obj1 complexity_score in
  if negb filter_out_complex || (complexity_score <=? COMPLEXITY_THRESHOLD)
  then Ok (Some obj2)
  else Ok None.

End WithAnnotator.

End SingleField.

(** ** Multi-turn variant: [Complex-Sharegpt-checkpoint.py] *)

Module MultiTurn.

Import Scorer.

Definition COMPLEXITY_THRESHOLD : Z := 64.

(** [x in ["human", "gpt"]]: only a [str] compares equal to a [str]. *)
Definition is_role (x : value) : bool :=
  match x with
  | VStr s => str_in s ["human"; "gpt"]
  | _ => false
  end.

(** What [for turn in v] iterates over: the items of a list, the keys of a
    dict, the characters of a string; nothing else in JSON is iterable. *)
Definition iterate (v : value) : result (list value) :=
  match v with
  | VList l => Ok l
  | VDict m => Ok (VStr <$> (map_to_list m).*1)
  | VStr s => Ok ((fun c => VStr (String c EmptyString)) <$> list_ascii_of_string s)
  | _ => Raise TypeError
  end.

Section WithAnnotator.

Variable nlp : value -> result Doc.

(** The body of [for turn in obj["conversations"]].  The turn is updated
    in place, so the record sees the new turn. *)
Definition process_turn (turn : value) (conversation_complexity : Z)
    : result (value * Z) :=
  from ← getitem turn "from";
  if is_role from then
    text ← getitem turn "value";
    if truthy text then
      a ← analyze_complexity nlp text;
      turn' ← setitem turn "complexity_analysis" (VDict (analysis_dict a));
      Ok (turn', conversation_complexity + score a)
    else Ok (turn, conversation_complexity)
  else Ok (turn, conversation_complexity).

Fixpoint process_turns (turns : list value) (conversation_complexity : Z)
    : result (list value * Z) :=
  match turns with
  | [] => Ok ([], conversation_complexity)
  | turn :: rest =>
      '(turn', c1) ← process_turn turn conversation_complexity;
      '(rest', c2) ← process_turns rest c1;
      Ok (turn' :: rest', c2)
  end.

(** The loop over [obj["conversations"]].  Only the items of a list are
    objects that can be updated; keys and characters are strings. *)
Definition process_conversations (conversations : value)
    : result (value * Z) :=
  turns ← iterate conversations;
  '(turns', c) ← process_turns turns 0;
  match conversations with
  | VList _ => Ok (VList turns', c)
  | _ => Ok (conversations, c)
  end.

(** Lines 60-67. *)
Definition enrich (obj : gmap string value) : result (gmap string value) :=
  match obj !! "conversations" with
  | Some conversations =>
      '(conversations', conversation_complexity) ←
        process_conversations conversations;
      Ok (<["is_complex" :=
              VBool (conversation_complexity >? COMPLEXITY_THRESHOLD)]>
          (<["total_conversation_complexity" := VInt conversation_complexity]>
          (<["conversations" := conversations']> obj)))
  | None => Ok obj
  end.

Definition process_line (obj : gmap string value) (filter_out_complex : bool)
    : result (option (gmap string value)) :=
  obj' ← enrich obj;
  if negb filter_out_complex then Ok (Some obj')
  else
    flag ← getitem (VDict obj') "is_complex";
    if negb (truthy flag) then Ok (Some obj') else Ok None.

End WithAnnotator.

End MultiTurn.

(** ** Vocabulary of the statements *)

Module Spec.

Import Scorer.

(** The sentence holds a token labelled [nsubjpass] or [auxpass]. *)
Definition has_passive_marker (sent : Sentence) : bool :=
  existsb is_passive sent.

(** By how much a count exceeds its cap, 0 when it does not. *)
Definition excess (n cap : Z) : Z := Z.max 0 (n - cap).

(** What one sentence adds to the score apart from passive voice. *)
Definition sentence_penalty (sent : Sentence) : Z :=
  excess (count_if is_participle sent) MAX_PARTICIPLES
  + excess (count_if is_clause sent) MAX_NESTED_CLAUSES.

Definition total_penalty (doc : Doc) : Z :=
  fold_right (fun sent acc => sentence_penalty sent + acc) 0 doc.

(** The reasons one sentence appends apart from passive voice. *)
Definition participle_reasons (sent : Sentence) : list string :=
  if count_if is_participle sent >? MAX_PARTICIPLES
  then [participle_reason (count_if is_participle sent)] else [].

Definition clause_reasons (sent : Sentence) : list string :=
  if count_if is_clause sent >? MAX_NESTED_CLAUSES
  then [clause_reason (count_if is_clause sent)] else [].

Definition sentence_reasons (sent : Sentence) : list string :=
  participle_reasons sent ++ clause_reasons sent.

(** [needle] occurs in [s]. *)
Definition contains (s needle : string) : Prop :=
  exists pre post : string, s = pre +:+ needle +:+ post.

(** The three keys [process_line] of the single-field variant assigns. *)
Definition analysis_keys : gset string :=
  {[ "complexity_analysis"; "total_complexity_score"; "is_complex" ]}.

(** The designated field is absent, or its value is false in a condition
    (the empty string, among others). *)
Definition field_missing (obj : gmap string value) : Prop :=
  match obj !! SingleField.ANALYZE_FIELD with
  | None => True
  | Some text => truthy text = false
  end.

End Spec.

(** ** Sample annotations

    Tokens, documents and records on which the statements below are
    evaluated. *)

Module Samples.

Import Scorer.

Definition participle_token : Token := mkToken "VBG" "ROOT".
Definition passive_token : Token := mkToken "VBN" "auxpass".
Definition clause_token : Token := mkToken "VB" "ccomp".
Definition plain_token : Token := mkToken "NN" "nsubj".

(** An annotator that parses every non-empty string to [doc], the empty
    string to no sentence, and rejects what is not a string. *)
Definition parse_as (doc : Doc) (text : value) : result Doc :=
  match text with
  | VStr EmptyString => Ok []
  | VStr _ => Ok doc
  | _ => Raise AnnotatorError
  end.

(** Passive markers in sentences 1 and 3, four participles in sentence 1. *)
Definition passive_doc : Doc :=
  [ [passive_token; participle_token; participle_token; participle_token;
     participle_token];
    [plain_token];
    [passive_token; passive_token] ].

(** One sentence: 3 participles, 2 nested clauses, no passive marker. *)
Definition participle_doc : Doc :=
  [ [participle_token; plain_token; participle_token; clause_token;
     participle_token; clause_token] ].

(** One sentence of [n] participles: score [n - 2] for [n > 2]. *)
Definition long_doc (n : nat) : Doc := [ replicate n participle_token ].

Definition text_record : gmap string value :=
  <["text" := VStr "Being tired, running late, having eaten."]>
  (<["id" := VInt 7]> ∅).

Definition empty_text_record : gmap string value :=
  <["text" := VStr EmptyString]> (<["id" := VInt 8]> ∅).

Definition chat_record : gmap string value :=
  <["conversations" :=
      VList [ VDict (<["from" := VStr "human"]> (<["value" := VStr "Hi"]> ∅));
              VDict (<["from" := VStr "system"]> (<["value" := VStr "Hi"]> ∅));
              VDict (<["from" := VStr "gpt"]> (<["value" := VStr "Hello"]> ∅)) ]]>
  (<["id" := VInt 9]> ∅).

(** A record with no ["conversations"] key that carries its own
    ["is_complex"]. *)
Definition flagged_record : gmap string value :=
  <["is_complex" := VBool false]> ∅.

Definition bare_record : gmap string value :=
  <["id" := VInt 10]> ∅.

End Samples.

(** ** Vocabulary of the further statements *)

Module Vocabulary.

Import Scorer Spec.

(** Some sentence of the document holds a passive-voice marker. *)
Definition doc_has_passive (doc : Doc) : bool :=
  existsb has_passive_marker doc.

(** The largest value of [f] over the sentences, 0 for no sentence. *)
Definition max_over (f : list Token -> Z) (doc : Doc) : Z :=
  fold_right (fun sent acc => Z.max (f sent) acc) 0 doc.

(** The turn is a dict whose role is recognised and whose text is true in
    a condition: the turns the multi-turn variant analyses. *)
Definition qualifies (turn : value) : bool :=
  match turn with
  | VDict m =>
      match m !! "from", m !! "value" with
      | Some from, Some text => MultiTurn.is_role from && truthy text
      | _, _ => false
      end
  | _ => false
  end.

(** The turn is a dict that the loop passes over without reading further:
    its role is not recognised, or its text is false in a condition. *)
Definition passed_over (turn : value) : bool :=
  match turn with
  | VDict m =>
      match m !! "from" with
      | Some from =>
          if MultiTurn.is_role from then
            match m !! "value" with
            | Some text => negb (truthy text)
            | None => false
            end
          else true
      | None => false
      end
  | _ => false
  end.

(** [turn["complexity_analysis"]["score"]] when it is there and an int. *)
Definition stored_score (turn : value) : Z :=
  match turn with
  | VDict m =>
      match m !! "complexity_analysis" with
      | Some (VDict d) =>
          match d !! "score" with
          | Some (VInt z) => z
          | _ => 0
          end
      | _ => 0
      end
  | _ => 0
  end.

(** The scores stored on the turns that were analysed: [turns] are the
    turns of the input, [turns'] those of the output. *)
Fixpoint sum_analysed (turns turns' : list value) : Z :=
  match turns, turns' with
  | turn :: rest, turn' :: rest' =>
      (if qualifies turn then stored_score turn' else 0)
      + sum_analysed rest rest'
  | _, _ => 0
  end.

(** The three keys the multi-turn [process_line] assigns. *)
Definition conversation_keys : gset string :=
  {[ "conversations"; "total_conversation_complexity"; "is_complex" ]}.

End Vocabulary.

(** ** [process_line] on any parsed line

    [json.loads] may return a value that is not a dict (a list, a string, a
    number).  The two functions below follow the statements of
    [process_line] on an arbitrary value, with Python's [in] and
    subscripting for each type. *)

Module ParsedLine.

Import Scorer.

(** [needle in s] on strings. *)
Fixpoint is_substring (needle s : string) : bool :=
  String.prefix needle s
  || match s with
     | EmptyString => false
     | String _ rest => is_substring needle rest
     end.

(** [k in v] for a string [k]: a key of a dict, an item of a list, a
    substring of a string; other JSON values are not containers. *)
Definition py_in (k : string) (v : value) : result bool :=
  match v with
  | VDict m => Ok (bool_decide (is_Some (m !! k)))
  | VList l =>
      Ok (existsb (fun x => match x with
                            | VStr s => String.eqb s k
                            | _ => false
                            end) l)
  | VStr s => Ok (is_substring k s)
  | _ => Raise TypeError
  end.

Section WithAnnotator.

Variable nlp : value -> result Doc.

(** [Complex-comp.py], lines 60-81. *)
Definition single_field_process_line (obj : value) (filter_out_complex : bool)
    : result (option value) :=
  present ← py_in SingleField.ANALYZE_FIELD obj;
  text ← (if present : bool then
            text ← getitem obj SingleField.ANALYZE_FIELD;
            Ok (if truthy text then Some text else None)
          else Ok (None : option value));
  '(obj1, complexity_score) ←
    match text with
    | Some text =>
        a ← analyze_complexity nlp text;
        obj1 ← setitem obj "complexity_analysis" (VDict (analysis_dict a));
        Ok (obj1, score a)
    | None =>
        obj1 ← setitem obj "complexity_analysis"
                 (VDict SingleField.missing_field_analysis);
        Ok (obj1, 0)
    end;
  obj2 ← setitem obj1 "total_complexity_score" (VInt complexity_score);
  obj3 ← setitem obj2 "is_complex"
           (VBool (complexity_score >? SingleField.COMPLEXITY_THRESHOLD));
  if negb filter_out_complex
     || (complexity_score <=? SingleField.COMPLEXITY_THRESHOLD)
  then Ok (Some obj3)
  else Ok None.

(** [Complex-Sharegpt-checkpoint.py], lines 60-71. *)
Definition multi_turn_process_line (obj : value) (filter_out_complex : bool)
    : result (option value) :=
  present ← py_in "conversations" obj;
  obj' ← (if present : bool then
            conversations ← getitem obj "conversations";
            '(conversations', conversation_complexity) ←
              MultiTurn.process_conversations nlp conversations;
            (* the turns were updated in place: the record holds them *)
            obj1 ← setitem obj "conversations" conversations';
            obj2 ← setitem obj1 "total_conversation_complexity"
                     (VInt conversation_complexity);
            setitem obj2 "is_complex"
              (VBool (conversation_complexity
                      >? MultiTurn.COMPLEXITY_THRESHOLD))
          else Ok obj);
  if negb filter_out_complex then Ok (Some obj')
  else
    flag ← getitem obj' "is_complex";
    if negb (truthy flag) then Ok (Some obj') else Ok None.

End WithAnnotator.

End ParsedLine.

(** ** Further sample records *)

Module MoreSamples.

Import Scorer Samples.


Definition human_turn : value :=
  VDict (<["from" := VStr "human"]> (<["value" := VStr "Hi"]> ∅)).

Definition system_turn : value :=
  VDict (<["from" := VStr "system"]> (<["value" := VStr "Be brief."]> ∅)).

(** A human turn with an empty text. *)
Definition silent_turn : value :=
  VDict (<["from" := VStr "human"]> (<["value" := VStr EmptyString]> ∅)).

(** A turn without a role. *)
Definition anonymous_turn : value :=
  VDict (<["value" := VStr "Hi"]> ∅).

(** A human turn without a text. *)
Definition mute_turn : value :=
  VDict (<["from" := VStr "human"]> ∅).

Definition record_of (conversations : value) : gmap string value :=
  <["conversations" := conversations]> (<["id" := VInt 11]> ∅).

(** An annotator that rejects everything. *)
Definition no_annotator (text : value) : result Doc := Raise AnnotatorError.

End MoreSamples.

(** ** The scorer, sentence by sentence *)

Section ScorerLemmas.

Import Scorer Spec.

Lemma gtb_excess n cap :
  excess n cap = if n >? cap then n - cap else 0.
Proof.
  unfold excess. destruct (n >? cap) eqn:E.
  - apply Z.gtb_lt in E. lia.
  - rewrite Z.gtb_ltb in E. apply Z.ltb_ge in E. lia.
Qed.

Lemma scan_passive_eq a sent :
  scan_passive a sent =
    if has_passive_marker sent && negb (has_passive_voice a)
    then mark_passive a else a.
Proof.
  unfold has_passive_marker.
  induction sent as [|token rest IH]; simpl; [reflexivity|].
  destruct (is_passive token); simpl; [|exact IH].
  destruct (has_passive_voice a); reflexivity.
Qed.

Lemma sentence_step_score a sent :
  score (sentence_step a sent) =
    score (scan_passive a sent) + sentence_penalty sent.
Proof.
  unfold sentence_step, sentence_penalty. rewrite !gtb_excess.
  destruct (count_if is_participle sent >? MAX_PARTICIPLES);
    destruct (count_if is_clause sent >? MAX_NESTED_CLAUSES); simpl; lia.
Qed.

Lemma sentence_step_reasons a sent :
  reasons (sentence_step a sent) =
    reasons (scan_passive a sent) ++ sentence_reasons sent.
Proof.
  unfold sentence_step, sentence_reasons, participle_reasons, clause_reasons.
  destruct (count_if is_participle sent >? MAX_PARTICIPLES);
    destruct (count_if is_clause sent >? MAX_NESTED_CLAUSES); simpl;
    rewrite ?app_nil_r, <- ?app_assoc; reflexivity.
Qed.

Lemma sentence_step_flag a sent :
  has_passive_voice (sentence_step a sent) =
    has_passive_voice a || has_passive_marker sent.
Proof.
  unfold sentence_step. rewrite scan_passive_eq.
  destruct (count_if is_participle sent >? MAX_PARTICIPLES);
    destruct (count_if is_clause sent >? MAX_NESTED_CLAUSES); simpl;
    destruct (has_passive_marker sent); destruct (has_passive_voice a) eqn:E;
    simpl; auto.
Qed.

Lemma sentence_step_num_sentences a sent :
  num_sentences (sentence_step a sent) = num_sentences a.
Proof.
  unfold sentence_step. rewrite scan_passive_eq.
  destruct (count_if is_participle sent >? MAX_PARTICIPLES);
    destruct (count_if is_clause sent >? MAX_NESTED_CLAUSES); simpl;
    destruct (has_passive_marker sent && negb (has_passive_voice a));
    reflexivity.
Qed.

Lemma sentence_penalty_nonneg sent : 0 <= sentence_penalty sent.
Proof. unfold sentence_penalty, excess. lia. Qed.

Lemma total_penalty_nonneg doc : 0 <= total_penalty doc.
Proof.
  induction doc as [|sent doc IH]; simpl; [lia|].
  pose proof (sentence_penalty_nonneg sent). lia.
Qed.

Lemma total_penalty_app d1 d2 :
  total_penalty (d1 ++ d2) = total_penalty d1 + total_penalty d2.
Proof. induction d1 as [|s d1 IH]; simpl; lia. Qed.

(** A sentence with no marker, or met after the flag is set, leaves the
    passive-voice state alone. *)
Lemma scan_passive_skip a sent :
  has_passive_voice a = true \/ has_passive_marker sent = false ->
  scan_passive a sent = a.
Proof.
  intros H. rewrite scan_passive_eq.
  destruct H as [-> | ->]; simpl; [|reflexivity].
  rewrite andb_false_r. reflexivity.
Qed.

(** The loop over sentences none of which records passive voice. *)
Lemma fold_quiet doc : forall a,
  has_passive_voice a = true \/
    Forall (fun sent => has_passive_marker sent = false) doc ->
  let r := fold_left sentence_step doc a in
  score r = score a + total_penalty doc /\
  reasons r = reasons a ++ flat_map sentence_reasons doc /\
  (has_passive_voice a = true -> has_passive_voice r = true) /\
  (Forall (fun sent => has_passive_marker sent = false) doc ->
   has_passive_voice r = has_passive_voice a).
Proof.
  induction doc as [|sent doc IH]; intros a H; simpl.
  - rewrite app_nil_r. repeat split; auto; lia.
  - assert (Hskip : scan_passive a sent = a).
    { apply scan_passive_skip. destruct H as [H|H]; [auto|].
      right. by inversion H. }
    assert (Hflag : has_passive_voice (sentence_step a sent)
                    = has_passive_voice a || has_passive_marker sent)
      by apply sentence_step_flag.
    destruct (IH (sentence_step a sent)) as (Hs & Hr & Hp & Hq).
    { destruct H as [H|H].
      - left. rewrite Hflag, H. reflexivity.
      - right. by inversion H. }
    rewrite sentence_step_score, sentence_step_reasons, Hskip in *.
    repeat split.
    + lia.
    + rewrite Hr, <- app_assoc. reflexivity.
    + intros Ha. apply Hp. rewrite Hflag, Ha. reflexivity.
    + intros HF. inversion HF as [|? ? Hm HF']; subst.
      rewrite (Hq HF'), Hflag, Hm. apply orb_false_r.
Qed.

(** The loop over a document whose first sentence with a marker is [sent]. *)
Lemma fold_first_passive pre sent post a :
  has_passive_voice a = false ->
  Forall (fun s => has_passive_marker s = false) pre ->
  has_passive_marker sent = true ->
  let r := fold_left sentence_step (pre ++ sent :: post) a in
  score r = score a + 1 + total_penalty (pre ++ sent :: post) /\
  reasons r = reasons a ++ flat_map sentence_reasons pre
                ++ passive_reason :: flat_map sentence_reasons (sent :: post) /\
  has_passive_voice r = true.
Proof.
  intros Ha Hpre Hsent. simpl. rewrite fold_left_app. simpl.
  destruct (fold_quiet pre a (or_intror Hpre)) as (Hs & Hr & _ & Hq).
  simpl in *. specialize (Hq Hpre).
  set (b := fold_left sentence_step pre a) in *.
  assert (Hb : scan_passive b sent = mark_passive b).
  { rewrite scan_passive_eq, Hsent, Hq, Ha. reflexivity. }
  assert (Hflag : has_passive_voice (sentence_step b sent) = true).
  { rewrite sentence_step_flag, Hsent. apply orb_true_r. }
  destruct (fold_quiet post (sentence_step b sent) (or_introl Hflag))
    as (Hs' & Hr' & Hp' & _).
  simpl in *. rewrite sentence_step_score, sentence_step_reasons, Hb in *.
  simpl in *. repeat split.
  - rewrite Hs', Hs, total_penalty_app. simpl. lia.
  - rewrite Hr', Hr, <- !app_assoc. reflexivity.
  - auto.
Qed.

Lemma first_passive_split doc :
  Exists (fun s => has_passive_marker s = true) doc ->
  exists pre sent post,
    doc = pre ++ sent :: post /\
    Forall (fun s => has_passive_marker s = false) pre /\
    has_passive_marker sent = true.
Proof.
  induction doc as [|s doc IH]; intros H; [inversion H|].
  destruct (has_passive_marker s) eqn:E.
  - exists [], s, doc. repeat split; auto.
  - inversion H as [? ? Hs|? ? Hd]; subst; [congruence|].
    destruct (IH Hd) as (pre & sent & post & -> & Hpre & Hsent).
    exists (s :: pre), sent, post. repeat split; auto.
Qed.

Lemma sentence_reasons_not_passive sent :
  count_occ string_dec (sentence_reasons sent) passive_reason = 0%nat.
Proof.
  unfold sentence_reasons, participle_reasons, clause_reasons.
  destruct (count_if is_participle sent >? MAX_PARTICIPLES);
    destruct (count_if is_clause sent >? MAX_NESTED_CLAUSES); simpl;
    repeat (destruct (string_dec _ _) as [E|_]; [discriminate E|]);
    reflexivity.
Qed.

Lemma doc_reasons_not_passive doc :
  count_occ string_dec (flat_map sentence_reasons doc) passive_reason = 0%nat.
Proof.
  induction doc as [|s doc IH]; simpl; [reflexivity|].
  rewrite count_occ_app, sentence_reasons_not_passive, IH. reflexivity.
Qed.

Lemma fold_num_sentences doc : forall a,
  num_sentences (fold_left sentence_step doc a) = num_sentences a.
Proof.
  induction doc as [|s doc IH]; intros a; simpl; [reflexivity|].
  rewrite IH. apply sentence_step_num_sentences.
Qed.

End ScorerLemmas.

Section ScorerMoreLemmas.

Import Scorer Spec.

Lemma scan_passive_score_le a sent : score a <= score (scan_passive a sent).
Proof.
  rewrite scan_passive_eq.
  destruct (has_passive_marker sent && negb (has_passive_voice a)); simpl; lia.
Qed.

Lemma fold_score_le doc : forall a,
  score a <= score (fold_left sentence_step doc a).
Proof.
  induction doc as [|sent doc IH]; intros a; simpl; [lia|].
  specialize (IH (sentence_step a sent)).
  rewrite sentence_step_score in IH.
  pose proof (scan_passive_score_le a sent).
  pose proof (sentence_penalty_nonneg sent). lia.
Qed.

Lemma filter_passive_Exists (doc : Doc) :
  (0 < length (filter (fun s => has_passive_marker s = true) doc))%nat ->
  Exists (fun s => has_passive_marker s = true) doc.
Proof.
  induction doc as [|s doc IH]; [simpl; lia|].
  rewrite filter_cons. destruct (decide (has_passive_marker s = true)) as [E|E].
  - intros _. by left.
  - intros H. right. auto.
Qed.

End ScorerMoreLemmas.

(** ** Properties of the scorer *)

Section ScorerClaims.

Import Scorer Spec.

Variable nlp : value -> result Doc.

(** C1: whenever the annotator returns a document for the text, the scorer
    returns an analysis, its score is at least 0, and [is_complex] is true
    exactly when the score is greater than 0. *)
Theorem score_nonneg_is_complex_iff_positive (text : value) (doc : Doc) :
  nlp text = Ok doc ->
  exists a, analyze_complexity nlp text = Ok a /\
    0 <= score a /\
    (is_complex a = true <-> 0 < score a).
Proof.
  intros Hdoc. unfold analyze_complexity. rewrite Hdoc. simpl.
  exists (analyze_doc doc). split; [reflexivity|].
  unfold analyze_doc, set_is_complex. simpl. split.
  - apply (fold_score_le doc (initial_analysis doc)).
  - apply Z.gtb_lt.
Qed.

(** C2: when more than one sentence of the text holds a passive-voice
    marker ([nsubjpass] or [auxpass]), passive voice adds exactly 1 to the
    score in total (the rest of the score is the participle and clause
    excess of the sentences) and exactly one passive-voice entry to
    [reasons]; the entry is appended at the first sentence that holds a
    marker, before the reasons of that sentence. *)
Theorem passive_voice_counted_once (text : value) (doc : Doc) :
  nlp text = Ok doc ->
  (1 < length (filter (fun s => has_passive_marker s = true) doc))%nat ->
  exists a, analyze_complexity nlp text = Ok a /\
    has_passive_voice a = true /\
    score a = 1 + total_penalty doc /\
    count_occ string_dec (reasons a) passive_reason = 1%nat /\
    exists pre sent post,
      doc = pre ++ sent :: post /\
      Forall (fun s => has_passive_marker s = false) pre /\
      has_passive_marker sent = true /\
      reasons a = flat_map sentence_reasons pre
                    ++ passive_reason :: flat_map sentence_reasons (sent :: post).
Proof.
  intros Hdoc Hmany. unfold analyze_complexity. rewrite Hdoc. simpl.
  exists (analyze_doc doc). split; [reflexivity|].
  destruct (first_passive_split doc) as (pre & sent & post & E & Hpre & Hsent).
  { apply filter_passive_Exists. lia. }
  destruct (fold_first_passive pre sent post (initial_analysis doc)
              eq_refl Hpre Hsent) as (Hs & Hr & Hp).
  rewrite <- E in Hs, Hr, Hp. simpl in Hs, Hr, Hp.
  unfold analyze_doc, set_is_complex. simpl.
  split; [exact Hp|]. split; [rewrite Hs; lia|]. split.
  - rewrite Hr, count_occ_app. simpl.
    rewrite count_occ_app, !doc_reasons_not_passive, sentence_reasons_not_passive.
    destruct (string_dec passive_reason passive_reason); [reflexivity|congruence].
  - exists pre, sent, post. repeat split; auto.
Qed.

(** C5: a text of one sentence with exactly 3 participle tokens (tag [VBG]
    or [VBN], role [ROOT], [advcl] or [acl]), no passive-voice marker and
    at most 2 nested-clause tokens gets score 1, exactly one reason and
    [is_complex = true]; and for any sentence, a participle count [c]
    greater than 2 adds [c - 2] to the score and appends one reason that
    names [c], next to what passive voice and nested clauses contribute. *)
Theorem three_participles_score_one :
  (forall (text : value) (sent : Sentence),
     nlp text = Ok [sent] ->
     count_if is_participle sent = 3 ->
     has_passive_marker sent = false ->
     count_if is_clause sent <= 2 ->
     exists a, analyze_complexity nlp text = Ok a /\
       score a = 1 /\
       reasons a = [participle_reason 3] /\
       length (reasons a) = 1%nat /\
       is_complex a = true) /\
  (forall (a : Analysis) (sent : Sentence),
     let c := count_if is_participle sent in
     c > 2 ->
     score (sentence_step a sent)
       = score (scan_passive a sent) + (c - 2)
         + excess (count_if is_clause sent) MAX_NESTED_CLAUSES /\
     reasons (sentence_step a sent)
       = reasons (scan_passive a sent)
           ++ [participle_reason c] ++ clause_reasons sent).
Proof.
  split.
  - intros text sent Hdoc Hc Hp Hk.
    unfold analyze_complexity. rewrite Hdoc. simpl.
    exists (analyze_doc [sent]). split; [reflexivity|].
    unfold analyze_doc, set_is_complex. simpl.
    rewrite sentence_step_score, sentence_step_reasons.
    rewrite (scan_passive_skip _ sent (or_intror Hp)). simpl.
    unfold sentence_penalty, sentence_reasons, participle_reasons,
      clause_reasons.
    rewrite !gtb_excess, Hc.
    assert (Hk' : (count_if is_clause sent >? MAX_NESTED_CLAUSES) = false).
    { rewrite Z.gtb_ltb. apply Z.ltb_ge. exact Hk. }
    rewrite Hk'. simpl. repeat split; reflexivity.
  - intros a sent c Hc.
    rewrite sentence_step_score, sentence_step_reasons.
    unfold sentence_penalty, sentence_reasons, participle_reasons.
    assert (Hc' : (count_if is_participle sent >? MAX_PARTICIPLES) = true).
    { apply Z.gtb_lt. unfold MAX_PARTICIPLES. fold c. lia. }
    rewrite (gtb_excess (count_if is_participle sent)), Hc'. fold c.
    split; [unfold MAX_PARTICIPLES; lia | reflexivity].
Qed.

(** C7: for the empty text, when the annotator yields no sentence for it,
    the scorer returns [num_sentences = 0], [score = 0], no reasons,
    [is_complex = false] and the three maxima at 0. *)
Theorem empty_text_all_zero :
  nlp (VStr EmptyString) = Ok [] ->
  analyze_complexity nlp (VStr EmptyString) =
    Ok {| has_passive_voice := false;
          max_nested_clauses := 0;
          longest_sentence := 0;
          num_participle_phrases := 0;
          num_sentences := 0;
          is_complex := false;
          reasons := [];
          score := 0 |}.
Proof.
  intros Hdoc. unfold analyze_complexity. rewrite Hdoc. reflexivity.
Qed.

End ScorerClaims.

(** ** Properties of the single-field [process_line] *)

Section SingleFieldClaims.

Import Scorer Spec SingleField.

Variable nlp : value -> result Doc.

Lemma embed_missing (obj : gmap string value) :
  field_missing obj ->
  embed_analysis nlp obj
    = Ok (<["complexity_analysis" := VDict missing_field_analysis]> obj, 0).
Proof.
  unfold field_missing, embed_analysis.
  destruct (obj !! ANALYZE_FIELD) as [text|]; [|reflexivity].
  intros ->. reflexivity.
Qed.

Lemma embed_present (obj : gmap string value) text a :
  obj !! ANALYZE_FIELD = Some text ->
  truthy text = true ->
  analyze_complexity nlp text = Ok a ->
  embed_analysis nlp obj
    = Ok (<["complexity_analysis" := VDict (analysis_dict a)]> obj, score a).
Proof.
  intros Hf Ht Ha. unfold embed_analysis. rewrite Hf, Ht, Ha. reflexivity.
Qed.

Lemma embed_shape (obj obj1 : gmap string value) s :
  embed_analysis nlp obj = Ok (obj1, s) ->
  exists d, obj1 = <["complexity_analysis" := VDict d]> obj.
Proof.
  unfold embed_analysis.
  destruct (obj !! ANALYZE_FIELD) as [text|].
  - destruct (truthy text).
    + destruct (analyze_complexity nlp text) as [a|e]; simpl; [|discriminate].
      intros [= <- _]. eauto.
    + intros [= <- _]. eauto.
  - intros [= <- _]. eauto.
Qed.

Lemma process_line_eq (obj obj1 : gmap string value) s f :
  embed_analysis nlp obj = Ok (obj1, s) ->
  process_line nlp obj f =
    if negb f || (s <=? COMPLEXITY_THRESHOLD)
    then Ok (Some (set_totals obj1 s)) else Ok None.
Proof. intros H. unfold process_line. rewrite H. reflexivity. Qed.

(** C3: with filtering enabled, a record whose text scores exactly 128 is
    emitted (enriched), one whose text scores 129 is dropped, and a record
    is dropped exactly when its score is strictly greater than the
    threshold 128. *)
Theorem threshold_comparison_is_strict
    (obj : gmap string value) (text : value) (a : Analysis) :
  obj !! ANALYZE_FIELD = Some text ->
  truthy text = true ->
  analyze_complexity nlp text = Ok a ->
  let enriched :=
    set_totals (<["complexity_analysis" := VDict (analysis_dict a)]> obj)
      (score a) in
  COMPLEXITY_THRESHOLD = 128 /\
  (score a = 128 -> process_line nlp obj true = Ok (Some enriched)) /\
  (score a = 129 -> process_line nlp obj true = Ok None) /\
  (process_line nlp obj true = Ok None <-> COMPLEXITY_THRESHOLD < score a).
Proof.
  intros Hf Ht Ha enriched.
  rewrite (process_line_eq _ _ _ true (embed_present _ _ _ Hf Ht Ha)).
  fold enriched. simpl. split; [reflexivity|]. split; [|split].
  - intros ->. reflexivity.
  - intros ->. reflexivity.
  - destruct (score a <=? COMPLEXITY_THRESHOLD) eqn:E.
    + apply Z.leb_le in E. split; [discriminate | lia].
    + apply Z.leb_gt in E. split; [auto | reflexivity].
Qed.

(** C6: when the field ["text"] is absent or empty, [process_line] does not
    raise: it emits the record, whatever the filter flag, with a stub
    analysis of score 0, [is_complex = false] and a single reason that
    contains the field name, a record-level score of 0 and a record-level
    [is_complex = false]. *)
Theorem missing_field_gets_stub (obj : gmap string value) (f : bool) :
  field_missing obj ->
  exists out stub reason,
    process_line nlp obj f = Ok (Some out) /\
    out !! "complexity_analysis" = Some (VDict stub) /\
    stub !! "score" = Some (VInt 0) /\
    stub !! "is_complex" = Some (VBool false) /\
    stub !! "reasons" = Some (VList [VStr reason]) /\
    contains reason ANALYZE_FIELD /\
    out !! "total_complexity_score" = Some (VInt 0) /\
    out !! "is_complex" = Some (VBool false).
Proof.
  intros Hm.
  exists (set_totals
            (<["complexity_analysis" := VDict missing_field_analysis]> obj) 0),
    missing_field_analysis, ("MISSING FIELD " +:+ ANALYZE_FIELD).
  split.
  { rewrite (process_line_eq _ _ _ f (embed_missing _ Hm)).
    simpl. rewrite orb_true_r. reflexivity. }
  unfold set_totals. repeat split.
  - rewrite !lookup_insert_ne by done. apply lookup_insert_eq.
  - exists "MISSING FIELD ", EmptyString. reflexivity.
  - rewrite lookup_insert_ne by done. apply lookup_insert_eq.
  - apply lookup_insert_eq.
Qed.

(** C8: an emitted record keeps every key of the input record with its
    value, provided the input has none of the keys [complexity_analysis],
    [total_complexity_score], [is_complex]; outside these three keys the
    output equals the input, and the keys of the output are those of the
    input plus these three. *)
Theorem emitted_record_extends_input
    (obj out : gmap string value) (f : bool) :
  process_line nlp obj f = Ok (Some out) ->
  obj !! "complexity_analysis" = None ->
  obj !! "total_complexity_score" = None ->
  obj !! "is_complex" = None ->
  (forall k v, obj !! k = Some v -> out !! k = Some v) /\
  (forall k, k ∉ analysis_keys -> out !! k = obj !! k) /\
  dom out = dom obj ∪ analysis_keys.
Proof.
  intros Hout H1 H2 H3.
  destruct (embed_analysis nlp obj) as [[obj1 s]|e] eqn:E.
  2:{ unfold process_line in Hout. rewrite E in Hout. discriminate. }
  rewrite (process_line_eq _ _ _ f E) in Hout.
  destruct (embed_shape _ _ _ E) as [d ->].
  assert (out = set_totals (<["complexity_analysis" := VDict d]> obj) s)
    as -> by (destruct (negb f || _); congruence).
  unfold set_totals, analysis_keys. repeat split.
  - intros k v Hk.
    rewrite !lookup_insert_ne by congruence. exact Hk.
  - intros k Hk.
    assert (k ≠ "complexity_analysis" /\ k ≠ "total_complexity_score"
            /\ k ≠ "is_complex") as (N1 & N2 & N3).
    { repeat split; intros ->; apply Hk; set_solver. }
    rewrite !lookup_insert_ne by congruence. reflexivity.
  - rewrite !dom_insert_L. apply set_eq. intros k.
    rewrite !elem_of_union, !elem_of_singleton. tauto.
Qed.

(** C10: the stub embedded for an absent or empty field has no
    [num_sentences] key, while the dict the scorer returns always has it
    (the sentence count), next to the seven keys of the stub. *)
Theorem stub_lacks_num_sentences :
  (forall (obj : gmap string value) (f : bool),
     field_missing obj ->
     exists out,
       process_line nlp obj f = Ok (Some out) /\
       out !! "complexity_analysis" = Some (VDict missing_field_analysis)) /\
  missing_field_analysis !! "num_sentences" = None /\
  (forall (text : value) (doc : Doc),
     nlp text = Ok doc ->
     exists a,
       analyze_complexity nlp text = Ok a /\
       analysis_dict a !! "num_sentences" = Some (VInt (Z.of_nat (length doc)))) /\
  (forall a : Analysis,
     dom (analysis_dict a) = dom missing_field_analysis ∪ {["num_sentences"]}).
Proof.
  split; [|split; [|split]].
  - intros obj f Hm. eexists. split.
    + rewrite (process_line_eq _ _ _ f (embed_missing _ Hm)).
      simpl. rewrite orb_true_r. reflexivity.
    + unfold set_totals. rewrite !lookup_insert_ne by done.
      apply lookup_insert_eq.
  - reflexivity.
  - intros text doc Hdoc. unfold analyze_complexity. rewrite Hdoc. simpl.
    eexists. split; [reflexivity|].
    unfold analysis_dict. rewrite !lookup_insert_ne by done.
    rewrite lookup_insert_eq. unfold analyze_doc, set_is_complex. simpl.
    rewrite fold_num_sentences. reflexivity.
  - intros a. unfold analysis_dict, missing_field_analysis.
    rewrite !dom_insert_L. set_solver.
Qed.

End SingleFieldClaims.

(** ** Properties of the multi-turn [process_line] *)

Section MultiTurnClaims.

Import Scorer Spec.

Variable nlp : value -> result Doc.

Lemma enrich_conversations (obj obj' : gmap string value) conversations :
  obj !! "conversations" = Some conversations ->
  MultiTurn.enrich nlp obj = Ok obj' ->
  exists conversations' c,
    MultiTurn.process_conversations nlp conversations = Ok (conversations', c) /\
    obj' = <["is_complex" := VBool (c >? MultiTurn.COMPLEXITY_THRESHOLD)]>
           (<["total_conversation_complexity" := VInt c]>
           (<["conversations" := conversations']> obj)).
Proof.
  intros Hc. unfold MultiTurn.enrich. rewrite Hc.
  destruct (MultiTurn.process_conversations nlp conversations)
    as [[conversations' c]|e]; simpl; [|discriminate].
  intros [= <-]. eauto.
Qed.

Lemma enrich_no_conversations (obj : gmap string value) :
  obj !! "conversations" = None -> MultiTurn.enrich nlp obj = Ok obj.
Proof. intros Hc. unfold MultiTurn.enrich. rewrite Hc. reflexivity. Qed.

(** C9, as amended: for a record with no ["conversations"] key,
    [process_line] returns the record unchanged when filtering is disabled;
    when filtering is enabled it raises [KeyError] if the record has no
    ["is_complex"] key either, and otherwise decides on the value the
    record came with: dropped when that value is true in a condition,
    emitted unchanged when it is not. *)
Theorem no_conversations_key (obj : gmap string value) :
  obj !! "conversations" = None ->
  MultiTurn.process_line nlp obj false = Ok (Some obj) /\
  (obj !! "is_complex" = None ->
   MultiTurn.process_line nlp obj true = Raise (KeyError "is_complex")) /\
  (forall flag, obj !! "is_complex" = Some flag ->
   MultiTurn.process_line nlp obj true
     = if truthy flag then Ok None else Ok (Some obj)).
Proof.
  intros Hc. unfold MultiTurn.process_line.
  rewrite (enrich_no_conversations _ Hc). simpl. split; [reflexivity|]. split.
  - intros ->. reflexivity.
  - intros flag ->. simpl. destruct (truthy flag); reflexivity.
Qed.

(** C4: with filtering enabled, each variant emits the enriched record
    exactly when the record-level [is_complex] it has just stored is false,
    and drops it exactly when that flag is true: the single-field variant,
    which compares the score with its threshold again, for every record it
    enriches, and the multi-turn variant, which reads the flag back, for
    every record with a ["conversations"] key that it enriches. *)
Theorem filter_agrees_with_is_complex_flag :
  (forall (obj obj1 : gmap string value) (s : Z),
     SingleField.embed_analysis nlp obj = Ok (obj1, s) ->
     let obj' := SingleField.set_totals obj1 s in
     exists flag : bool,
       obj' !! "is_complex" = Some (VBool flag) /\
       (SingleField.process_line nlp obj true = Ok (Some obj') <-> flag = false) /\
       (SingleField.process_line nlp obj true = Ok None <-> flag = true)) /\
  (forall (obj obj' : gmap string value),
     is_Some (obj !! "conversations") ->
     MultiTurn.enrich nlp obj = Ok obj' ->
     exists flag : bool,
       obj' !! "is_complex" = Some (VBool flag) /\
       (MultiTurn.process_line nlp obj true = Ok (Some obj') <-> flag = false) /\
       (MultiTurn.process_line nlp obj true = Ok None <-> flag = true)).
Proof.
  split.
  - intros obj obj1 s E obj'.
    exists (s >? SingleField.COMPLEXITY_THRESHOLD). split.
    { unfold obj', SingleField.set_totals. apply lookup_insert_eq. }
    rewrite (process_line_eq nlp _ _ _ true E). fold obj'. simpl.
    rewrite Z.gtb_ltb, Z.ltb_antisym.
    destruct (s <=? SingleField.COMPLEXITY_THRESHOLD); simpl;
      split; split; congruence.
  - intros obj obj' [conversations Hc] E.
    destruct (enrich_conversations _ _ _ Hc E) as (c' & c & _ & Hobj').
    exists (c >? MultiTurn.COMPLEXITY_THRESHOLD). split.
    { rewrite Hobj'. apply lookup_insert_eq. }
    unfold MultiTurn.process_line. rewrite E. simpl.
    assert (Hflag : obj' !! "is_complex"
                    = Some (VBool (c >? MultiTurn.COMPLEXITY_THRESHOLD))).
    { rewrite Hobj'. apply lookup_insert_eq. }
    rewrite Hflag. simpl.
    destruct (c >? MultiTurn.COMPLEXITY_THRESHOLD); simpl;
      split; split; congruence.
Qed.

End MultiTurnClaims.

(** ** The statements on sample inputs *)

Section Instances.

Import Scorer Spec Samples.

Lemma score_nonneg_is_complex_iff_positive_witness :
  parse_as passive_doc (VStr "It was seen.") = Ok passive_doc /\
  exists a,
    analyze_complexity (parse_as passive_doc) (VStr "It was seen.") = Ok a /\
    0 <= score a /\
    (is_complex a = true <-> 0 < score a).
Proof.
  split; [reflexivity|].
  apply (score_nonneg_is_complex_iff_positive
           (parse_as passive_doc) (VStr "It was seen.") passive_doc).
  reflexivity.
Defined.

Lemma passive_voice_counted_once_witness :
  (1 < length (filter (fun s => has_passive_marker s = true) passive_doc))%nat /\
  exists a,
    analyze_complexity (parse_as passive_doc) (VStr "It was seen.") = Ok a /\
    has_passive_voice a = true /\
    score a = 1 + total_penalty passive_doc /\
    count_occ string_dec (reasons a) passive_reason = 1%nat /\
    exists pre sent post,
      passive_doc = pre ++ sent :: post /\
      Forall (fun s => has_passive_marker s = false) pre /\
      has_passive_marker sent = true /\
      reasons a = flat_map sentence_reasons pre
                    ++ passive_reason :: flat_map sentence_reasons (sent :: post).
Proof.
  assert (H : (1 < length (filter (fun s => has_passive_marker s = true)
                             passive_doc))%nat) by (vm_compute; lia).
  split; [exact H|].
  apply (passive_voice_counted_once
           (parse_as passive_doc) (VStr "It was seen.") passive_doc);
    [reflexivity | exact H].
Defined.

Lemma three_participles_score_one_witness :
  (exists a,
     analyze_complexity (parse_as participle_doc) (VStr "Running.") = Ok a /\
     score a = 1 /\
     reasons a = [participle_reason 3] /\
     length (reasons a) = 1%nat /\
     is_complex a = true) /\
  (score (sentence_step (initial_analysis (long_doc 7))
            (replicate 7 participle_token))
     = score (scan_passive (initial_analysis (long_doc 7))
                (replicate 7 participle_token))
       + (count_if is_participle (replicate 7 participle_token) - 2)
       + excess (count_if is_clause (replicate 7 participle_token))
           MAX_NESTED_CLAUSES /\
   reasons (sentence_step (initial_analysis (long_doc 7))
              (replicate 7 participle_token))
     = reasons (scan_passive (initial_analysis (long_doc 7))
                  (replicate 7 participle_token))
         ++ [participle_reason
               (count_if is_participle (replicate 7 participle_token))]
         ++ clause_reasons (replicate 7 participle_token)).
Proof.
  split.
  - apply (proj1 (three_participles_score_one (parse_as participle_doc))
             (VStr "Running.")
             [participle_token; plain_token; participle_token; clause_token;
              participle_token; clause_token]).
    + reflexivity.
    + reflexivity.
    + reflexivity.
    + vm_compute. discriminate.
  - apply (proj2 (three_participles_score_one (parse_as participle_doc))
             (initial_analysis (long_doc 7)) (replicate 7 participle_token)).
    reflexivity.
Defined.

Lemma empty_text_all_zero_witness :
  analyze_complexity (parse_as passive_doc) (VStr EmptyString) =
    Ok {| has_passive_voice := false;
          max_nested_clauses := 0;
          longest_sentence := 0;
          num_participle_phrases := 0;
          num_sentences := 0;
          is_complex := false;
          reasons := [];
          score := 0 |}.
Proof.
  apply (empty_text_all_zero (parse_as passive_doc)). reflexivity.
Defined.

Lemma threshold_comparison_is_strict_witness :
  score (analyze_doc (long_doc 130)) = 128 /\
  score (analyze_doc (long_doc 131)) = 129 /\
  SingleField.process_line (parse_as (long_doc 130)) text_record true
    = Ok (Some (SingleField.set_totals
                  (<["complexity_analysis" :=
                       VDict (analysis_dict (analyze_doc (long_doc 130)))]>
                   text_record) 128)) /\
  SingleField.process_line (parse_as (long_doc 131)) text_record true = Ok None.
Proof.
  assert (H128 : score (analyze_doc (long_doc 130)) = 128) by reflexivity.
  assert (H129 : score (analyze_doc (long_doc 131)) = 129) by reflexivity.
  split; [exact H128|]. split; [exact H129|]. split.
  - apply (proj1 (proj2 (threshold_comparison_is_strict
             (parse_as (long_doc 130)) text_record
             (VStr "Being tired, running late, having eaten.")
             (analyze_doc (long_doc 130)) eq_refl eq_refl eq_refl)) H128).
  - apply (proj1 (proj2 (proj2 (threshold_comparison_is_strict
             (parse_as (long_doc 131)) text_record
             (VStr "Being tired, running late, having eaten.")
             (analyze_doc (long_doc 131)) eq_refl eq_refl eq_refl))) H129).
Defined.

Lemma missing_field_gets_stub_witness :
  field_missing empty_text_record /\
  exists out stub reason,
    SingleField.process_line (parse_as passive_doc) empty_text_record true
      = Ok (Some out) /\
    out !! "complexity_analysis" = Some (VDict stub) /\
    stub !! "score" = Some (VInt 0) /\
    stub !! "is_complex" = Some (VBool false) /\
    stub !! "reasons" = Some (VList [VStr reason]) /\
    contains reason SingleField.ANALYZE_FIELD /\
    out !! "total_complexity_score" = Some (VInt 0) /\
    out !! "is_complex" = Some (VBool false).
Proof.
  assert (H : field_missing empty_text_record) by reflexivity.
  split; [exact H|].
  apply (missing_field_gets_stub (parse_as passive_doc) empty_text_record true H).
Defined.

End Instances.

Section MoreInstances.

Import Scorer Spec Samples.

Lemma emitted_record_extends_input_witness :
  let out :=
    SingleField.set_totals
      (<["complexity_analysis" :=
           VDict (analysis_dict (analyze_doc participle_doc))]> text_record) 1 in
  SingleField.process_line (parse_as participle_doc) text_record false
    = Ok (Some out) /\
  (forall k v, text_record !! k = Some v -> out !! k = Some v) /\
  (forall k, k ∉ analysis_keys -> out !! k = text_record !! k) /\
  dom out = dom text_record ∪ analysis_keys.
Proof.
  intros out.
  assert (H : SingleField.process_line (parse_as participle_doc)
                text_record false = Ok (Some out)) by reflexivity.
  split; [exact H|].
  apply (emitted_record_extends_input (parse_as participle_doc)
           text_record out false H); reflexivity.
Defined.

Lemma stub_lacks_num_sentences_witness :
  (exists out,
     SingleField.process_line (parse_as passive_doc) empty_text_record true
       = Ok (Some out) /\
     out !! "complexity_analysis"
       = Some (VDict SingleField.missing_field_analysis)) /\
  (exists a,
     analyze_complexity (parse_as passive_doc) (VStr "It was seen.") = Ok a /\
     analysis_dict a !! "num_sentences" = Some (VInt 3)).
Proof.
  split.
  - apply (proj1 (stub_lacks_num_sentences (parse_as passive_doc))
             empty_text_record true).
    reflexivity.
  - apply (proj1 (proj2 (proj2 (stub_lacks_num_sentences (parse_as passive_doc))))
             (VStr "It was seen.") passive_doc).
    reflexivity.
Defined.

Lemma no_conversations_key_witness :
  bare_record !! "conversations" = None /\
  MultiTurn.process_line (parse_as passive_doc) bare_record false
    = Ok (Some bare_record) /\
  MultiTurn.process_line (parse_as passive_doc) bare_record true
    = Raise (KeyError "is_complex") /\
  MultiTurn.process_line (parse_as passive_doc) flagged_record true
    = Ok (Some flagged_record).
Proof.
  split; [reflexivity|]. split; [|split].
  - apply (proj1 (no_conversations_key (parse_as passive_doc) bare_record
                    eq_refl)).
  - apply (proj1 (proj2 (no_conversations_key (parse_as passive_doc)
                           bare_record eq_refl))).
    reflexivity.
  - apply (proj2 (proj2 (no_conversations_key (parse_as passive_doc)
                           flagged_record eq_refl)) (VBool false)).
    reflexivity.
Defined.

Lemma filter_agrees_with_is_complex_flag_witness :
  (exists flag : bool,
     SingleField.set_totals
       (<["complexity_analysis" :=
            VDict (analysis_dict (analyze_doc (long_doc 131)))]> text_record)
       129 !! "is_complex" = Some (VBool flag) /\
     (SingleField.process_line (parse_as (long_doc 131)) text_record true
        = Ok (Some (SingleField.set_totals
             (<["complexity_analysis" :=
                  VDict (analysis_dict (analyze_doc (long_doc 131)))]>
              text_record) 129))
      <-> flag = false) /\
     (SingleField.process_line (parse_as (long_doc 131)) text_record true
        = Ok None <-> flag = true)) /\
  (exists obj',
     MultiTurn.enrich (parse_as passive_doc) chat_record = Ok obj' /\
     exists flag : bool,
       obj' !! "is_complex" = Some (VBool flag) /\
       (MultiTurn.process_line (parse_as passive_doc) chat_record true
          = Ok (Some obj') <-> flag = false) /\
       (MultiTurn.process_line (parse_as passive_doc) chat_record true
          = Ok None <-> flag = true)).
Proof.
  split.
  - apply (proj1 (filter_agrees_with_is_complex_flag (parse_as (long_doc 131)))
             text_record
             (<["complexity_analysis" :=
                  VDict (analysis_dict (analyze_doc (long_doc 131)))]>
              text_record) 129).
    reflexivity.
  - eexists. split; [reflexivity|].
    apply (proj2 (filter_agrees_with_is_complex_flag (parse_as passive_doc))
             chat_record).
    + eexists. reflexivity.
    + reflexivity.
Defined.

(** C9, as stated, fails on a record that has no ["conversations"] key and
    comes with an ["is_complex"] key of its own: with filtering enabled
    nothing is raised, the record is emitted as it is. *)
Lemma no_conversations_without_key_error :
  (<["is_complex" := VBool false]> ∅ : gmap string value) !! "conversations"
    = None /\
  MultiTurn.process_line (fun _ => Raise AnnotatorError)
    (<["is_complex" := VBool false]> ∅) true
    = Ok (Some (<["is_complex" := VBool false]> ∅)) /\
  (forall k : string,
     MultiTurn.process_line (fun _ => Raise AnnotatorError)
       (<["is_complex" := VBool false]> ∅) true
     <> Raise (KeyError k)).
Proof.
  split; [reflexivity|]. split; [reflexivity|].
  intros k. discriminate.
Qed.

End MoreInstances.

(** ** Further properties of the scorer *)

Section ScorerFurther.

Import Scorer Spec Vocabulary.

Lemma doc_has_passive_false doc :
  doc_has_passive doc = false ->
  Forall (fun s => has_passive_marker s = false) doc.
Proof.
  unfold doc_has_passive. induction doc as [|s doc IH]; simpl; intros H.
  - constructor.
  - apply orb_false_iff in H as [Hs Hd]. constructor; auto.
Qed.

Lemma doc_has_passive_true doc :
  doc_has_passive doc = true ->
  Exists (fun s => has_passive_marker s = true) doc.
Proof.
  unfold doc_has_passive. induction doc as [|s doc IH]; simpl; intros H.
  - discriminate.
  - apply orb_true_iff in H as [Hs|Hd]; [by left | right; auto].
Qed.

Lemma doc_has_passive_app d1 d2 :
  doc_has_passive (d1 ++ d2) = doc_has_passive d1 || doc_has_passive d2.
Proof. unfold doc_has_passive. apply existsb_app. Qed.

Lemma sentence_step_maxima a sent :
  max_nested_clauses (sentence_step a sent)
    = Z.max (max_nested_clauses a) (count_if is_clause sent) /\
  longest_sentence (sentence_step a sent)
    = Z.max (longest_sentence a) (Z.of_nat (length sent)) /\
  num_participle_phrases (sentence_step a sent)
    = Z.max (num_participle_phrases a) (count_if is_participle sent).
Proof.
  unfold sentence_step. rewrite scan_passive_eq.
  destruct (count_if is_participle sent >? MAX_PARTICIPLES);
    destruct (count_if is_clause sent >? MAX_NESTED_CLAUSES);
    destruct (has_passive_marker sent && negb (has_passive_voice a));
    simpl; repeat split; reflexivity.
Qed.

Lemma fold_maxima doc : forall a,
  0 <= max_nested_clauses a -> 0 <= longest_sentence a ->
  0 <= num_participle_phrases a ->
  let r := fold_left sentence_step doc a in
  max_nested_clauses r
    = Z.max (max_nested_clauses a) (max_over (count_if is_clause) doc) /\
  longest_sentence r
    = Z.max (longest_sentence a)
        (max_over (fun s => Z.of_nat (length s)) doc) /\
  num_participle_phrases r
    = Z.max (num_participle_phrases a) (max_over (count_if is_participle) doc).
Proof.
  induction doc as [|s doc IH]; intros a P1 P2 P3; simpl.
  - repeat split; lia.
  - destruct (sentence_step_maxima a s) as (E1 & E2 & E3).
    destruct (IH (sentence_step a s)) as (H1 & H2 & H3); [lia..|].
    simpl in *. rewrite H1, H2, H3, E1, E2, E3. repeat split; lia.
Qed.

Lemma max_over_nonneg f doc : 0 <= max_over f doc.
Proof. induction doc as [|s doc IH]; simpl; lia. Qed.

Lemma max_over_bound f (doc : Doc) sent :
  In sent doc -> f sent <= max_over f doc.
Proof.
  induction doc as [|s doc IH]; simpl; [tauto|].
  intros [->|H]; [lia|]. specialize (IH H). lia.
Qed.

Lemma max_over_attained f (doc : Doc) :
  (forall s, In s doc -> 0 <= f s) ->
  doc <> [] -> exists sent, In sent doc /\ max_over f doc = f sent.
Proof.
  induction doc as [|s doc IH]; intros Hf Hne; [congruence|].
  destruct doc as [|s' doc'].
  - exists s. split; [by left|]. simpl.
    specialize (Hf s (or_introl eq_refl)). lia.
  - destruct IH as (t & Ht & Et); [intros; apply Hf; by right | discriminate |].
    change (max_over f (s :: s' :: doc'))
      with (Z.max (f s) (max_over f (s' :: doc'))).
    destruct (Z.max_spec (f s) (max_over f (s' :: doc'))) as [[_ E]|[_ E]].
    + exists t. split; [by right | congruence].
    + exists s. split; [by left | exact E].
Qed.

Lemma count_if_bounds p (sent : list Token) :
  0 <= count_if p sent <= Z.of_nat (length sent).
Proof.
  unfold count_if. split; [lia|].
  apply inj_le. apply length_filter.
Qed.

Lemma score_closed_form (doc : Doc) :
  has_passive_voice (analyze_doc doc) = doc_has_passive doc /\
  score (analyze_doc doc)
    = (if doc_has_passive doc then 1 else 0) + total_penalty doc /\
  count_occ string_dec (reasons (analyze_doc doc)) passive_reason
    = (if doc_has_passive doc then 1 else 0)%nat.
Proof.
  unfold analyze_doc, set_is_complex. simpl.
  destruct (doc_has_passive doc) eqn:E.
  - destruct (first_passive_split doc (doc_has_passive_true doc E))
      as (pre & sent & post & Hd & Hpre & Hsent).
    destruct (fold_first_passive pre sent post (initial_analysis doc)
                eq_refl Hpre Hsent) as (Hs & Hr & Hp).
    rewrite <- Hd in Hs, Hr, Hp. simpl in Hs, Hr, Hp.
    split; [exact Hp|]. split; [rewrite Hs; lia|].
    rewrite Hr, count_occ_app. simpl.
    rewrite count_occ_app, !doc_reasons_not_passive, sentence_reasons_not_passive.
    destruct (string_dec passive_reason passive_reason); [reflexivity|congruence].
  - pose proof (doc_has_passive_false doc E) as HF.
    destruct (fold_quiet doc (initial_analysis doc) (or_intror HF))
      as (Hs & Hr & _ & Hq).
    simpl in *. split; [exact (Hq HF)|]. split; [rewrite Hs; lia|].
    rewrite Hr. apply doc_reasons_not_passive.
Qed.

(** X1: for every document, [has_passive_voice] tells whether some
    sentence holds a passive marker, the score is 1 for passive voice (if
    any) plus the participle and clause excess of every sentence, and the
    passive-voice reason occurs once or not at all. *)
Theorem score_is_passive_plus_excess (doc : Doc) :
  has_passive_voice (analyze_doc doc) = doc_has_passive doc /\
  score (analyze_doc doc)
    = (if doc_has_passive doc then 1 else 0) + total_penalty doc /\
  count_occ string_dec (reasons (analyze_doc doc)) passive_reason
    = (if doc_has_passive doc then 1 else 0)%nat.
Proof. exact (score_closed_form doc). Qed.

Lemma maxima_closed_form (doc : Doc) :
  max_nested_clauses (analyze_doc doc) = max_over (count_if is_clause) doc /\
  longest_sentence (analyze_doc doc)
    = max_over (fun s => Z.of_nat (length s)) doc /\
  num_participle_phrases (analyze_doc doc)
    = max_over (count_if is_participle) doc.
Proof.
  destruct (fold_maxima doc (initial_analysis doc)) as (H1 & H2 & H3);
    [simpl; lia..|].
  simpl in H1, H2, H3. unfold analyze_doc, set_is_complex. simpl.
  rewrite H1, H2, H3.
  pose proof (max_over_nonneg (count_if is_clause) doc).
  pose proof (max_over_nonneg (fun s => Z.of_nat (length s)) doc).
  pose proof (max_over_nonneg (count_if is_participle) doc).
  repeat split; lia.
Qed.

(** X2: the three maxima are maxima over the sentences: no sentence has
    more nested-clause tokens than [max_nested_clauses], more tokens than
    [longest_sentence] or more participle tokens than
    [num_participle_phrases]; in a document with at least one sentence each
    bound is attained by some sentence; [num_sentences] is the number of
    sentences. *)
Theorem maxima_are_attained_bounds (doc : Doc) :
  let a := analyze_doc doc in
  (forall sent, In sent doc ->
     count_if is_clause sent <= max_nested_clauses a /\
     Z.of_nat (length sent) <= longest_sentence a /\
     count_if is_participle sent <= num_participle_phrases a) /\
  (doc <> [] ->
     (exists sent, In sent doc /\ max_nested_clauses a = count_if is_clause sent) /\
     (exists sent, In sent doc /\ longest_sentence a = Z.of_nat (length sent)) /\
     (exists sent, In sent doc /\
        num_participle_phrases a = count_if is_participle sent)) /\
  num_sentences a = Z.of_nat (length doc).
Proof.
  intros a. destruct (maxima_closed_form doc) as (E1 & E2 & E3). fold a in E1, E2, E3.
  rewrite E1, E2, E3. split; [|split].
  - intros sent Hin. repeat split.
    + apply (max_over_bound (count_if is_clause) doc sent Hin).
    + apply (max_over_bound (fun s => Z.of_nat (length s)) doc sent Hin).
    + apply (max_over_bound (count_if is_participle) doc sent Hin).
  - intros Hne. repeat split.
    + apply max_over_attained; [|exact Hne].
      intros s _. apply count_if_bounds.
    + apply max_over_attained; [|exact Hne]. intros s _. lia.
    + apply max_over_attained; [|exact Hne].
      intros s _. apply count_if_bounds.
  - unfold a, analyze_doc, set_is_complex. simpl.
    apply fold_num_sentences.
Qed.

Lemma reasons_up_to_order (doc : Doc) :
  Permutation (reasons (analyze_doc doc))
    ((if doc_has_passive doc then [passive_reason] else [])
     ++ flat_map sentence_reasons doc).
Proof.
  unfold analyze_doc, set_is_complex. simpl.
  destruct (doc_has_passive doc) eqn:E.
  - destruct (first_passive_split doc (doc_has_passive_true doc E))
      as (pre & sent & post & Hd & Hpre & Hsent).
    destruct (fold_first_passive pre sent post (initial_analysis doc)
                eq_refl Hpre Hsent) as (_ & Hr & _).
    rewrite <- Hd in Hr. simpl in Hr. rewrite Hr, Hd. simpl.
    rewrite flat_map_app. simpl. symmetry. apply Permutation_middle.
  - pose proof (doc_has_passive_false doc E) as HF.
    destruct (fold_quiet doc (initial_analysis doc) (or_intror HF))
      as (_ & Hr & _). simpl in Hr. rewrite Hr. reflexivity.
Qed.

Lemma sentence_reasons_length sent :
  Z.of_nat (length (sentence_reasons sent)) <= sentence_penalty sent /\
  (sentence_reasons sent = [] <-> sentence_penalty sent = 0).
Proof.
  unfold sentence_reasons, participle_reasons, clause_reasons,
    sentence_penalty. rewrite !gtb_excess.
  destruct (count_if is_participle sent >? MAX_PARTICIPLES) eqn:E1;
    destruct (count_if is_clause sent >? MAX_NESTED_CLAUSES) eqn:E2;
    try apply Z.gtb_lt in E1; try apply Z.gtb_lt in E2; simpl;
    (split; [lia | split; [discriminate || lia | lia || reflexivity]]).
Qed.

Lemma doc_reasons_length (doc : Doc) :
  Z.of_nat (length (flat_map sentence_reasons doc)) <= total_penalty doc /\
  (flat_map sentence_reasons doc = [] <-> total_penalty doc = 0).
Proof.
  induction doc as [|s doc [IH1 IH2]]; simpl.
  - split; [lia | tauto].
  - destruct (sentence_reasons_length s) as [H1 H2].
    pose proof (sentence_penalty_nonneg s).
    pose proof (total_penalty_nonneg doc).
    rewrite length_app. split; [lia|]. split.
    + intros E. apply app_eq_nil in E as [Hs Hd].
      apply H2 in Hs. apply IH2 in Hd. lia.
    + intros E. assert (sentence_penalty s = 0) as Hs by lia.
      assert (total_penalty doc = 0) as Hd by lia.
      apply H2 in Hs. apply IH2 in Hd. rewrite Hs, Hd. reflexivity.
Qed.

(** X3: the score is at least the number of reasons, and a text is complex
    exactly when a reason is recorded: [reasons] is empty if and only if
    the score is 0, if and only if [is_complex] is false. *)
Theorem complex_iff_some_reason (doc : Doc) :
  Z.of_nat (length (reasons (analyze_doc doc))) <= score (analyze_doc doc) /\
  (reasons (analyze_doc doc) = [] <-> score (analyze_doc doc) = 0) /\
  (reasons (analyze_doc doc) = [] <-> is_complex (analyze_doc doc) = false).
Proof.
  destruct (score_closed_form doc) as (_ & Hs & _).
  pose proof (reasons_up_to_order doc) as Hp.
  destruct (doc_reasons_length doc) as [L1 L2].
  pose proof (total_penalty_nonneg doc) as Hn.
  assert (Hc : is_complex (analyze_doc doc) = (score (analyze_doc doc) >? 0))
    by reflexivity.
  rewrite Hc, Hs, Z.gtb_ltb.
  pose proof (Permutation_length Hp) as Hlen.
  destruct (doc_has_passive doc); simpl in *.
  - split; [rewrite Hlen; lia|]. split; split.
    + intros E. rewrite E in Hlen. discriminate.
    + lia.
    + intros E. rewrite E in Hlen. discriminate.
    + intros E. apply Z.ltb_ge in E. lia.
  - split; [rewrite Hlen; lia|]. split; split.
    + intros E. rewrite E in Hp. apply Permutation_nil in Hp.
      apply L2 in Hp. lia.
    + intros E. assert (total_penalty doc = 0) as E' by lia.
      apply L2 in E'. rewrite E' in Hp.
      apply Permutation_sym, Permutation_nil in Hp. exact Hp.
    + intros E. rewrite E in Hp. apply Permutation_nil in Hp.
      apply L2 in Hp. apply Z.ltb_ge. lia.
    + intros E. apply Z.ltb_ge in E.
      assert (total_penalty doc = 0) as E' by lia.
      apply L2 in E'. rewrite E' in Hp.
      apply Permutation_sym, Permutation_nil in Hp. exact Hp.
Qed.

Lemma total_penalty_positive (doc : Doc) :
  0 < total_penalty doc <->
  exists sent, In sent doc /\ 0 < sentence_penalty sent.
Proof.
  induction doc as [|s doc IH]; simpl.
  - split; [lia | intros (? & [] & _)].
  - pose proof (sentence_penalty_nonneg s).
    pose proof (total_penalty_nonneg doc). split.
    + intros Hpos. destruct (Z.lt_ge_cases 0 (sentence_penalty s)) as [Hs|Hs].
      * exists s. auto.
      * destruct (proj1 IH) as (t & Ht & Hp); [lia|]. exists t. auto.
    + intros (t & [->|Ht] & Hp); [lia|].
      assert (0 < total_penalty doc) by (apply IH; eauto). lia.
Qed.

(** X4: a text is complex exactly when one of its sentences holds a
    passive marker, has more than 2 participle tokens or has more than 2
    nested-clause tokens. *)
Theorem complex_iff_some_sentence_exceeds (doc : Doc) :
  is_complex (analyze_doc doc) = true <->
  exists sent, In sent doc /\
    (has_passive_marker sent = true \/
     2 < count_if is_participle sent \/
     2 < count_if is_clause sent).
Proof.
  destruct (score_closed_form doc) as (_ & Hs & _).
  assert (Hc : is_complex (analyze_doc doc) = (score (analyze_doc doc) >? 0))
    by reflexivity.
  rewrite Hc, Hs. clear Hc Hs.
  pose proof (total_penalty_nonneg doc) as Hn. split.
  - intros H. apply Z.gtb_lt in H.
    destruct (doc_has_passive doc) eqn:E.
    + apply doc_has_passive_true, Exists_exists in E as (s & Hin & Hp).
      apply list_elem_of_In in Hin. exists s. auto.
    + destruct (proj1 (total_penalty_positive doc)) as (s & Hin & Hp); [lia|].
      exists s. split; [exact Hin|]. right.
      unfold sentence_penalty, excess, MAX_PARTICIPLES, MAX_NESTED_CLAUSES in Hp.
      lia.
  - intros (s & Hin & H). apply Z.gtb_lt.
    destruct H as [H|H].
    + assert (doc_has_passive doc = true) as ->.
      { unfold doc_has_passive. apply existsb_exists. eauto. }
      lia.
    + assert (0 < total_penalty doc).
      { apply total_penalty_positive. exists s. split; [exact Hin|].
        pose proof (count_if_bounds is_participle s).
        pose proof (count_if_bounds is_clause s).
        unfold sentence_penalty, excess, MAX_PARTICIPLES, MAX_NESTED_CLAUSES.
        lia. }
      destruct (doc_has_passive doc); lia.
Qed.

Lemma doc_has_passive_perm (doc doc' : Doc) :
  Permutation doc doc' -> doc_has_passive doc = doc_has_passive doc'.
Proof.
  unfold doc_has_passive. induction 1 as [|s d d' _ IH|s t d|d d' d'' _ IH1 _ IH2];
    simpl.
  - reflexivity.
  - rewrite IH. reflexivity.
  - destruct (has_passive_marker s), (has_passive_marker t); reflexivity.
  - congruence.
Qed.

Lemma total_penalty_perm (doc doc' : Doc) :
  Permutation doc doc' -> total_penalty doc = total_penalty doc'.
Proof.
  induction 1 as [|s d d' _ IH|s t d|d d' d'' _ IH1 _ IH2]; simpl; lia.
Qed.

Lemma max_over_perm f (doc doc' : Doc) :
  Permutation doc doc' -> max_over f doc = max_over f doc'.
Proof.
  induction 1 as [|s d d' _ IH|s t d|d d' d'' _ IH1 _ IH2]; simpl; lia.
Qed.

Lemma sentence_reasons_perm (doc doc' : Doc) :
  Permutation doc doc' ->
  Permutation (flat_map sentence_reasons doc) (flat_map sentence_reasons doc').
Proof.
  induction 1 as [|s d d' _ IH|s t d|d d' d'' _ IH1 _ IH2]; simpl.
  - reflexivity.
  - apply Permutation_app_head. exact IH.
  - rewrite !app_assoc. apply Permutation_app_tail, Permutation_app_comm.
  - etransitivity; eassumption.
Qed.

(** X5: the order of the sentences only shows in the order of the reasons:
    two documents with the same sentences in a different order get the
    same score, flags, maxima and sentence count, and the same reasons up
    to their order. *)
Theorem analysis_independent_of_sentence_order (doc doc' : Doc) :
  Permutation doc doc' ->
  score (analyze_doc doc) = score (analyze_doc doc') /\
  is_complex (analyze_doc doc) = is_complex (analyze_doc doc') /\
  has_passive_voice (analyze_doc doc) = has_passive_voice (analyze_doc doc') /\
  max_nested_clauses (analyze_doc doc) = max_nested_clauses (analyze_doc doc') /\
  longest_sentence (analyze_doc doc) = longest_sentence (analyze_doc doc') /\
  num_participle_phrases (analyze_doc doc)
    = num_participle_phrases (analyze_doc doc') /\
  num_sentences (analyze_doc doc) = num_sentences (analyze_doc doc') /\
  Permutation (reasons (analyze_doc doc)) (reasons (analyze_doc doc')).
Proof.
  intros Hp.
  destruct (score_closed_form doc) as (F & S & _).
  destruct (score_closed_form doc') as (F' & S' & _).
  destruct (maxima_closed_form doc) as (E1 & E2 & E3).
  destruct (maxima_closed_form doc') as (E1' & E2' & E3').
  assert (Hs : score (analyze_doc doc) = score (analyze_doc doc')).
  { rewrite S, S', (doc_has_passive_perm _ _ Hp), (total_penalty_perm _ _ Hp).
    reflexivity. }
  split; [exact Hs|]. split.
  { change (is_complex (analyze_doc doc)) with (score (analyze_doc doc) >? 0).
    change (is_complex (analyze_doc doc')) with (score (analyze_doc doc') >? 0).
    rewrite Hs. reflexivity. }
  split; [rewrite F, F'; apply doc_has_passive_perm, Hp|].
  split; [rewrite E1, E1'; apply max_over_perm, Hp|].
  split; [rewrite E2, E2'; apply max_over_perm, Hp|].
  split; [rewrite E3, E3'; apply max_over_perm, Hp|].
  split.
  { unfold analyze_doc, set_is_complex. simpl.
    rewrite !fold_num_sentences. simpl.
    rewrite (Permutation_length Hp). reflexivity. }
  rewrite (reasons_up_to_order doc), (reasons_up_to_order doc').
  rewrite (doc_has_passive_perm _ _ Hp).
  apply Permutation_app_head, sentence_reasons_perm, Hp.
Qed.

Lemma max_over_mono f g (doc : Doc) :
  (forall s, f s <= g s) -> max_over f doc <= max_over g doc.
Proof.
  intros H. induction doc as [|s doc IH]; simpl; [lia|].
  specialize (H s). lia.
Qed.

Lemma total_penalty_le (doc : Doc) (b : Z) :
  (forall s, In s doc -> sentence_penalty s <= b) ->
  total_penalty doc <= Z.of_nat (length doc) * b.
Proof.
  induction doc as [|s doc IH]; intros H; simpl length; simpl total_penalty.
  - lia.
  - assert (sentence_penalty s <= b) by (apply H; by left).
    assert (total_penalty doc <= Z.of_nat (length doc) * b)
      by (apply IH; intros; apply H; by right).
    lia.
Qed.

(** X6: the reported maxima bound each other and the score: no sentence
    has more participle or nested-clause tokens than the longest sentence
    has tokens, and the score is at most 1 plus, for each sentence, the
    excess of the two maxima over their cap of 2. *)
Theorem score_bounded_by_maxima (doc : Doc) :
  let a := analyze_doc doc in
  0 <= max_nested_clauses a <= longest_sentence a /\
  0 <= num_participle_phrases a <= longest_sentence a /\
  score a <= 1 + num_sentences a
                 * (excess (num_participle_phrases a) MAX_PARTICIPLES
                    + excess (max_nested_clauses a) MAX_NESTED_CLAUSES).
Proof.
  intros a. destruct (maxima_closed_form doc) as (E1 & E2 & E3).
  destruct (score_closed_form doc) as (_ & S & _).
  fold a in E1, E2, E3, S.
  assert (N : num_sentences a = Z.of_nat (length doc)).
  { unfold a, analyze_doc, set_is_complex. simpl. apply fold_num_sentences. }
  rewrite E1, E2, E3, S, N. split; [|split].
  - split; [apply max_over_nonneg|].
    apply max_over_mono. intros s. apply count_if_bounds.
  - split; [apply max_over_nonneg|].
    apply max_over_mono. intros s. apply count_if_bounds.
  - assert (total_penalty doc
            <= Z.of_nat (length doc)
               * (excess (max_over (count_if is_participle) doc) MAX_PARTICIPLES
                  + excess (max_over (count_if is_clause) doc)
                      MAX_NESTED_CLAUSES)).
    { apply total_penalty_le. intros s Hin.
      pose proof (max_over_bound (count_if is_participle) doc s Hin).
      pose proof (max_over_bound (count_if is_clause) doc s Hin).
      unfold sentence_penalty, excess. lia. }
    destruct (doc_has_passive doc); lia.
Qed.

Lemma sentence_step_congr a a' sent :
  has_passive_voice a = has_passive_voice a' ->
  reasons a = reasons a' ->
  has_passive_voice (sentence_step a sent)
    = has_passive_voice (sentence_step a' sent) /\
  reasons (sentence_step a sent) = reasons (sentence_step a' sent).
Proof.
  intros Hf Hr. rewrite !sentence_step_flag, !sentence_step_reasons,
    !scan_passive_eq, Hf.
  split; [reflexivity|].
  destruct (has_passive_marker sent && negb (has_passive_voice a')); simpl;
    rewrite Hr; reflexivity.
Qed.

Lemma fold_congr doc : forall a a',
  has_passive_voice a = has_passive_voice a' ->
  reasons a = reasons a' ->
  reasons (fold_left sentence_step doc a)
    = reasons (fold_left sentence_step doc a').
Proof.
  induction doc as [|s doc IH]; intros a a' Hf Hr; simpl; [exact Hr|].
  destruct (sentence_step_congr a a' s Hf Hr) as [Hf' Hr'].
  apply IH; assumption.
Qed.

Lemma fold_reasons_extend doc : forall a,
  exists extra, reasons (fold_left sentence_step doc a) = reasons a ++ extra.
Proof.
  induction doc as [|s doc IH]; intros a; simpl.
  - exists []. rewrite app_nil_r. reflexivity.
  - destruct (IH (sentence_step a s)) as [extra ->].
    rewrite sentence_step_reasons, scan_passive_eq.
    destruct (has_passive_marker s && negb (has_passive_voice a)); simpl;
      rewrite <- ?app_assoc; eauto.
Qed.

Lemma max_over_app f (d1 d2 : Doc) :
  max_over f (d1 ++ d2) = Z.max (max_over f d1) (max_over f d2).
Proof.
  induction d1 as [|s d1 IH]; simpl.
  - pose proof (max_over_nonneg f d2). lia.
  - rewrite IH. lia.
Qed.

(** X7: sentences that follow only add to the analysis: the reasons of a
    document are a prefix of the reasons of any document that continues it,
    and the score and the three maxima of the longer document are at
    least those of the shorter one. *)
Theorem later_sentences_only_add (doc more : Doc) :
  (exists extra,
     reasons (analyze_doc (doc ++ more)) = reasons (analyze_doc doc) ++ extra) /\
  score (analyze_doc doc) <= score (analyze_doc (doc ++ more)) /\
  max_nested_clauses (analyze_doc doc)
    <= max_nested_clauses (analyze_doc (doc ++ more)) /\
  longest_sentence (analyze_doc doc)
    <= longest_sentence (analyze_doc (doc ++ more)) /\
  num_participle_phrases (analyze_doc doc)
    <= num_participle_phrases (analyze_doc (doc ++ more)).
Proof.
  split.
  - unfold analyze_doc, set_is_complex. simpl. rewrite fold_left_app.
    destruct (fold_reasons_extend more
                (fold_left sentence_step doc (initial_analysis (doc ++ more))))
      as [extra ->].
    exists extra. f_equal. apply fold_congr; reflexivity.
  - destruct (score_closed_form doc) as (_ & S & _).
    destruct (score_closed_form (doc ++ more)) as (_ & S' & _).
    destruct (maxima_closed_form doc) as (E1 & E2 & E3).
    destruct (maxima_closed_form (doc ++ more)) as (E1' & E2' & E3').
    rewrite S, S', E1, E2, E3, E1', E2', E3'.
    rewrite doc_has_passive_app, total_penalty_app, !max_over_app.
    pose proof (total_penalty_nonneg more).
    repeat split; try lia.
    destruct (doc_has_passive doc), (doc_has_passive more); simpl; lia.
Qed.

End ScorerFurther.

(** Two maps built by inserts are equal: compare them key by key. *)
Ltac insert_cases :=
  apply map_eq; intros ?; rewrite ?lookup_insert;
  repeat case_decide; subst; congruence.

(** ** Further properties of the single-field [process_line] *)

Section SingleFieldFurther.

Import Scorer Spec Vocabulary SingleField.

Variable nlp : value -> result Doc.

Lemma set_totals_lookup (obj : gmap string value) s :
  set_totals obj s !! "is_complex" = Some (VBool (s >? COMPLEXITY_THRESHOLD)) /\
  set_totals obj s !! "total_complexity_score" = Some (VInt s) /\
  set_totals obj s !! "complexity_analysis" = obj !! "complexity_analysis" /\
  set_totals obj s !! ANALYZE_FIELD = obj !! ANALYZE_FIELD.
Proof.
  unfold set_totals. repeat split.
  - apply lookup_insert_eq.
  - rewrite lookup_insert_ne by done. apply lookup_insert_eq.
  - rewrite !lookup_insert_ne by done. reflexivity.
  - rewrite !lookup_insert_ne by done. reflexivity.
Qed.

(** X8: [process_line] raises only when the annotator does: it raises [e]
    exactly when the field ["text"] is present, its value is true in a
    condition and the annotator raises [e] on it; for every other record
    it returns. *)
Theorem single_field_raises_only_from_annotator
    (obj : gmap string value) (f : bool) (e : exn) :
  process_line nlp obj f = Raise e <->
  exists text,
    obj !! ANALYZE_FIELD = Some text /\ truthy text = true /\
    nlp text = Raise e.
Proof.
  unfold process_line, embed_analysis, analyze_complexity.
  destruct (obj !! ANALYZE_FIELD) as [text|] eqn:Hf.
  - destruct (truthy text) eqn:Ht.
    + destruct (nlp text) as [doc|e'] eqn:Hn; simpl.
      * split.
        -- destruct (negb f || _); discriminate.
        -- intros (t & [= <-] & _ & Hr). congruence.
      * split.
        -- intros [= ->]. eauto.
        -- intros (t & [= <-] & _ & Hr). congruence.
    + simpl. split.
      * destruct (negb f || _); discriminate.
      * intros (t & [= <-] & Ht' & _). congruence.
  - simpl. split.
    + destruct (negb f || _); discriminate.
    + intros (t & [=] & _).
Qed.

(** X9: the filter flag decides only whether the record is written.  An
    unfiltered run never drops a record; a record emitted under filtering
    is emitted unchanged without it; and a record dropped under filtering
    is one that is written, without filtering, with [is_complex] true. *)
Theorem single_field_filter_only_drops (obj : gmap string value) :
  process_line nlp obj false <> Ok None /\
  (forall out, process_line nlp obj true = Ok (Some out) ->
     process_line nlp obj false = Ok (Some out)) /\
  (process_line nlp obj true = Ok None ->
     exists out, process_line nlp obj false = Ok (Some out) /\
       out !! "is_complex" = Some (VBool true)).
Proof.
  destruct (embed_analysis nlp obj) as [[obj1 s]|e] eqn:E.
  - rewrite !(process_line_eq nlp _ _ _ _ E). simpl.
    destruct (s <=? COMPLEXITY_THRESHOLD) eqn:Hs.
    + repeat split; [discriminate | auto | discriminate].
    + repeat split; [discriminate | discriminate |].
      intros _. eexists. split; [reflexivity|].
      destruct (set_totals_lookup obj1 s) as (-> & _).
      rewrite Z.gtb_ltb, Z.ltb_antisym, Hs. reflexivity.
  - unfold process_line. rewrite E. simpl.
    repeat split; discriminate.
Qed.

(** X10: in an emitted record the record-level fields repeat the embedded
    analysis: [total_complexity_score] is the embedded [score], which is
    not negative; the embedded [is_complex] says the score is above 0 and
    the record-level [is_complex] says it is above 128, so the second
    implies the first. *)
Theorem single_field_record_fields_consistent
    (obj out : gmap string value) (f : bool) :
  process_line nlp obj f = Ok (Some out) ->
  exists (d : gmap string value) (s : Z) (b : bool),
    out !! "complexity_analysis" = Some (VDict d) /\
    d !! "score" = Some (VInt s) /\
    d !! "is_complex" = Some (VBool b) /\
    out !! "total_complexity_score" = Some (VInt s) /\
    out !! "is_complex" = Some (VBool (s >? COMPLEXITY_THRESHOLD)) /\
    0 <= s /\
    (b = true <-> 0 < s) /\
    ((s >? COMPLEXITY_THRESHOLD) = true -> b = true).
Proof.
  intros Hout.
  destruct (embed_analysis nlp obj) as [[obj1 s]|e] eqn:E.
  2:{ unfold process_line in Hout. rewrite E in Hout. discriminate. }
  rewrite (process_line_eq nlp _ _ _ f E) in Hout.
  assert (out = set_totals obj1 s) as ->
    by (destruct (negb f || _); congruence).
  destruct (set_totals_lookup obj1 s) as (L1 & L2 & L3 & _).
  rewrite L1, L2, L3. clear Hout L1 L2 L3.
  unfold embed_analysis in E.
  assert (Stub : exists d b,
            <["complexity_analysis" := VDict missing_field_analysis]> obj
              !! "complexity_analysis" = Some (VDict d) /\
            d !! "score" = Some (VInt 0) /\
            d !! "is_complex" = Some (VBool b) /\
            (b = true <-> 0 < 0)).
  { exists missing_field_analysis, false. rewrite lookup_insert_eq.
    repeat split; try reflexivity; [discriminate | lia]. }
  destruct (obj !! ANALYZE_FIELD) as [text|].
  - destruct (truthy text).
    + unfold analyze_complexity in E.
      destruct (nlp text) as [doc|e]; simpl in E; [|discriminate].
      injection E as <- <-.
      exists (analysis_dict (analyze_doc doc)), (score (analyze_doc doc)),
        (is_complex (analyze_doc doc)).
      rewrite lookup_insert_eq.
      assert (Hpos : 0 <= score (analyze_doc doc))
        by apply (fold_score_le doc (initial_analysis doc)).
      assert (Hc : is_complex (analyze_doc doc) = true
                   <-> 0 < score (analyze_doc doc)) by apply Z.gtb_lt.
      repeat split; try reflexivity; try tauto.
      intros H. apply Z.gtb_lt in H. apply Hc.
      unfold COMPLEXITY_THRESHOLD in H. lia.
    + injection E as <- <-. destruct Stub as (d & b & H1 & H2 & H3 & H4).
      exists d, 0, b. repeat split; try assumption; try tauto; try reflexivity.
      discriminate.
  - injection E as <- <-. destruct Stub as (d & b & H1 & H2 & H3 & H4).
    exists d, 0, b. repeat split; try assumption; try tauto; try reflexivity.
    discriminate.
Qed.



(** X12: enriching is idempotent: a record that was emitted, given to
    [process_line] again, is emitted again and is the same record. *)
Theorem single_field_idempotent (obj out : gmap string value) (f : bool) :
  process_line nlp obj f = Ok (Some out) ->
  process_line nlp out f = Ok (Some out).
Proof.
  intros Hout.
  destruct (embed_analysis nlp obj) as [[obj1 s]|e] eqn:E.
  2:{ unfold process_line in Hout. rewrite E in Hout. discriminate. }
  rewrite (process_line_eq nlp _ _ _ f E) in Hout.
  destruct (negb f || (s <=? COMPLEXITY_THRESHOLD)) eqn:Hemit;
    [|discriminate].
  injection Hout as <-.
  destruct (embed_shape nlp _ _ _ E) as [d ->].
  assert (E' : embed_analysis nlp
                 (set_totals (<["complexity_analysis" := VDict d]> obj) s)
               = Ok (<["complexity_analysis" := VDict d]>
                       (set_totals (<["complexity_analysis" := VDict d]> obj) s),
                     s)).
  { unfold embed_analysis in *.
    destruct (set_totals_lookup (<["complexity_analysis" := VDict d]> obj) s)
      as (_ & _ & _ & ->).
    rewrite lookup_insert_ne by done.
    destruct (obj !! ANALYZE_FIELD) as [text|].
    - destruct (truthy text).
      + destruct (analyze_complexity nlp text) as [a|e]; simpl in *;
          [|discriminate].
        injection E as E1 <-. f_equal. f_equal. f_equal.
        apply (f_equal (fun m => m !! "complexity_analysis")) in E1.
        rewrite !lookup_insert_eq in E1. congruence.
      + injection E as E1 <-. f_equal. f_equal. f_equal.
        apply (f_equal (fun m => m !! "complexity_analysis")) in E1.
        rewrite !lookup_insert_eq in E1. congruence.
    - injection E as E1 <-. f_equal. f_equal. f_equal.
      apply (f_equal (fun m => m !! "complexity_analysis")) in E1.
      rewrite !lookup_insert_eq in E1. congruence. }
  rewrite (process_line_eq nlp _ _ _ f E'), Hemit. f_equal. f_equal.
  unfold set_totals. insert_cases.
Qed.

End SingleFieldFurther.

(** ** Further properties of the multi-turn [process_line] *)

Section MultiTurnFurther.

Import Scorer Spec Vocabulary MultiTurn.

Variable nlp : value -> result Doc.

Lemma analysis_dict_score a : analysis_dict a !! "score" = Some (VInt (score a)).
Proof.
  unfold analysis_dict. rewrite !lookup_insert_ne by done.
  apply lookup_insert_eq.
Qed.

(** What a turn that was processed looks like. *)
Lemma process_turn_inv turn c turn' c' :
  process_turn nlp turn c = Ok (turn', c') ->
  exists (m : gmap string value) from,
    turn = VDict m /\ m !! "from" = Some from /\
    ((qualifies turn = false /\ passed_over turn = true /\
      turn' = turn /\ c' = c) \/
     (qualifies turn = true /\ passed_over turn = false /\
      exists text doc,
        m !! "value" = Some text /\ nlp text = Ok doc /\
        turn' = VDict (<["complexity_analysis" :=
                           VDict (analysis_dict (analyze_doc doc))]> m) /\
        c' = c + score (analyze_doc doc))).
Proof.
  unfold process_turn. destruct turn as [| | | | |l|m]; simpl; try discriminate.
  destruct (m !! "from") as [from|] eqn:Hf; simpl; [|discriminate].
  intros H. exists m, from. split; [reflexivity|]. split; [exact Hf|].
  unfold qualifies, passed_over.
  destruct (is_role from) eqn:Hr; simpl in *.
  - destruct (m !! "value") as [text|] eqn:Hv; simpl in *; [|discriminate].
    destruct (truthy text) eqn:Ht; simpl in *.
    + unfold analyze_complexity in H.
      destruct (nlp text) as [doc|e] eqn:Hn; simpl in H; [|discriminate].
      injection H as <- <-. right. repeat split. eauto 10.
    + injection H as <- <-. left. auto.
  - injection H as <- <-. left.
    destruct (m !! "value"); auto.
Qed.

Lemma process_turns_app pre rest c0 :
  process_turns nlp (pre ++ rest) c0 =
    '(pre', c1) ← process_turns nlp pre c0;
    '(rest', c2) ← process_turns nlp rest c1;
    Ok (pre' ++ rest', c2).
Proof.
  revert c0. induction pre as [|t pre IH]; intros c0; simpl.
  - destruct (process_turns nlp rest c0) as [[rest' c2]|e]; reflexivity.
  - destruct (process_turn nlp t c0) as [[t' c1]|e]; simpl; [|reflexivity].
    rewrite IH.
    destruct (process_turns nlp pre c1) as [[pre' c2]|e]; simpl; [|reflexivity].
    destruct (process_turns nlp rest c2) as [[rest' c3]|e]; reflexivity.
Qed.

(** The loop over the turns: lengths, the aggregate, what each turn keeps. *)
Lemma process_turns_inv turns : forall c0 turns' c,
  process_turns nlp turns c0 = Ok (turns', c) ->
  length turns' = length turns /\
  c = c0 + sum_analysed turns turns' /\
  c0 <= c /\
  Forall2 (fun turn turn' =>
             forall k, k <> "complexity_analysis" ->
               getitem turn' k = getitem turn k) turns turns'.
Proof.
  induction turns as [|t turns IH]; intros c0 turns' c; simpl.
  - intros [= <- <-]. simpl. repeat split; [lia..|constructor].
  - destruct (process_turn nlp t c0) as [[t' c1]|e] eqn:Ht; simpl;
      [|discriminate].
    destruct (process_turns nlp turns c1) as [[rest' c2]|e] eqn:Hr; simpl;
      [|discriminate].
    intros [= <- <-].
    destruct (IH _ _ _ Hr) as (L & S & M & F).
    destruct (process_turn_inv _ _ _ _ Ht)
      as (m & from & -> & Hf &
          [(Q & _ & -> & ->)|(Q & _ & text & doc & Hv & Hn & -> & ->)]).
    + simpl length. change (sum_analysed (VDict m :: turns) (VDict m :: rest'))
        with ((if qualifies (VDict m) then stored_score (VDict m) else 0)
              + sum_analysed turns rest').
      rewrite Q. repeat split; [lia..|]. constructor; auto.
    + simpl length.
      change (sum_analysed (VDict m :: turns)
                (VDict (<["complexity_analysis" :=
                            VDict (analysis_dict (analyze_doc doc))]> m) :: rest'))
        with ((if qualifies (VDict m)
               then stored_score
                      (VDict (<["complexity_analysis" :=
                                  VDict (analysis_dict (analyze_doc doc))]> m))
               else 0)
              + sum_analysed turns rest').
      rewrite Q. unfold stored_score.
      rewrite lookup_insert_eq, analysis_dict_score.
      pose proof (fold_score_le doc (initial_analysis doc)) as Hpos.
      change (score (initial_analysis doc)) with 0 in Hpos.
      change (score (fold_left sentence_step doc (initial_analysis doc)))
        with (score (analyze_doc doc)) in Hpos.
      repeat split; [lia..|]. constructor; [|exact F].
      intros k Hk. simpl. rewrite lookup_insert_ne by congruence. reflexivity.
Qed.

Lemma enrich_list (obj : gmap string value) turns :
  obj !! "conversations" = Some (VList turns) ->
  enrich nlp obj =
    '(turns', c) ← process_turns nlp turns 0;
    Ok (<["is_complex" := VBool (c >? COMPLEXITY_THRESHOLD)]>
        (<["total_conversation_complexity" := VInt c]>
        (<["conversations" := VList turns']> obj))).
Proof.
  intros Hc. unfold enrich, process_conversations. rewrite Hc. simpl.
  destruct (process_turns nlp turns 0) as [[turns' c]|e]; reflexivity.
Qed.

Lemma process_line_enriched (obj obj' : gmap string value) (b f : bool) :
  enrich nlp obj = Ok obj' ->
  obj' !! "is_complex" = Some (VBool b) ->
  process_line nlp obj f = if negb f || negb b then Ok (Some obj') else Ok None.
Proof.
  intros E Hb. unfold process_line. rewrite E. simpl.
  destruct f; simpl; [|reflexivity]. rewrite Hb. simpl.
  destruct b; reflexivity.
Qed.

Lemma process_line_emitted (obj out : gmap string value) (f : bool) :
  process_line nlp obj f = Ok (Some out) -> enrich nlp obj = Ok out.
Proof.
  unfold process_line. destruct (enrich nlp obj) as [obj'|e]; simpl;
    [|discriminate].
  destruct f; simpl.
  - destruct (obj' !! "is_complex") as [flag|]; simpl; [|discriminate].
    destruct (truthy flag); simpl; [discriminate|]. congruence.
  - congruence.
Qed.

(** X13: the record-level total is the sum of the scores stored on the
    turns that were analysed (role ["human"] or ["gpt"] and a text that is
    true in a condition); it is not negative; [is_complex] says whether it
    exceeds 64; the output has as many turns as the input, and a turn keeps
    every key but [complexity_analysis]. *)
Theorem multi_turn_total_is_sum_of_turn_scores
    (obj out : gmap string value) (turns : list value) (f : bool) :
  obj !! "conversations" = Some (VList turns) ->
  process_line nlp obj f = Ok (Some out) ->
  exists turns',
    out !! "conversations" = Some (VList turns') /\
    length turns' = length turns /\
    out !! "total_conversation_complexity"
      = Some (VInt (sum_analysed turns turns')) /\
    0 <= sum_analysed turns turns' /\
    out !! "is_complex"
      = Some (VBool (sum_analysed turns turns' >? COMPLEXITY_THRESHOLD)) /\
    Forall2 (fun turn turn' =>
               forall k, k <> "complexity_analysis" ->
                 getitem turn' k = getitem turn k) turns turns'.
Proof.
  intros Hc Hout. apply process_line_emitted in Hout.
  rewrite (enrich_list _ _ Hc) in Hout.
  destruct (process_turns nlp turns 0) as [[turns' c]|e] eqn:Ht; simpl in Hout;
    [|discriminate].
  injection Hout as <-.
  destruct (process_turns_inv _ _ _ _ Ht) as (L & S & M & F).
  simpl in S. subst c. exists turns'.
  split; [rewrite !lookup_insert_ne by done; apply lookup_insert_eq|].
  split; [exact L|].
  split; [rewrite lookup_insert_ne by done; apply lookup_insert_eq|].
  split; [exact M|].
  split; [apply lookup_insert_eq | exact F].
Qed.

Lemma process_turns_passed_over turns : forall c,
  Forall (fun turn => passed_over turn = true) turns ->
  process_turns nlp turns c = Ok (turns, c).
Proof.
  induction turns as [|t turns IH]; intros c H; simpl; [reflexivity|].
  inversion H as [|? ? Ht Hrest]; subst.
  assert (process_turn nlp t c = Ok (t, c)) as ->.
  { unfold process_turn, passed_over in *.
    destruct t as [| | | | |l|m]; try discriminate. simpl.
    destruct (m !! "from") as [from|]; [|discriminate]. simpl.
    destruct (is_role from); [|reflexivity].
    destruct (m !! "value") as [text|]; [|discriminate]. simpl.
    destruct (truthy text); [discriminate | reflexivity]. }
  simpl. rewrite (IH c Hrest). reflexivity.
Qed.

(** X14: turns whose role is not ["human"] or ["gpt"], or whose text is
    false in a condition, are not given to the annotator and are not
    changed: a record made of such turns only is emitted, whatever the
    annotator and the filter flag, with a total of 0 and [is_complex]
    false, and nothing else differs from the input. *)
Theorem multi_turn_passes_over_other_turns
    (obj : gmap string value) (turns : list value) (f : bool) :
  obj !! "conversations" = Some (VList turns) ->
  Forall (fun turn => passed_over turn = true) turns ->
  process_line nlp obj f
    = Ok (Some (<["is_complex" := VBool false]>
                (<["total_conversation_complexity" := VInt 0]> obj))).
Proof.
  intros Hc Hp.
  assert (E : enrich nlp obj
              = Ok (<["is_complex" := VBool false]>
                    (<["total_conversation_complexity" := VInt 0]> obj))).
  { rewrite (enrich_list _ _ Hc), (process_turns_passed_over _ 0 Hp). simpl.
    rewrite (insert_id obj "conversations" (VList turns) Hc). reflexivity. }
  rewrite (process_line_enriched _ _ false f E (lookup_insert_eq _ _ _)).
  simpl. rewrite orb_true_r. reflexivity.
Qed.

Lemma process_line_raise (obj : gmap string value) (f : bool) e :
  enrich nlp obj = Raise e -> process_line nlp obj f = Raise e.
Proof. intros E. unfold process_line. rewrite E. reflexivity. Qed.

(** X15: one malformed turn aborts the record.  When the turns before it
    are processed without error, a turn that is not a dict raises
    [TypeError], a dict turn without ["from"] raises [KeyError "from"], and
    a turn with role ["human"] or ["gpt"] but without ["value"] raises
    [KeyError "value"], whatever follows and whatever the filter flag. *)
Theorem multi_turn_malformed_turn_aborts
    (obj : gmap string value) (pre post pre' : list value) (bad : value)
    (c : Z) (f : bool) :
  obj !! "conversations" = Some (VList (pre ++ bad :: post)) ->
  process_turns nlp pre 0 = Ok (pre', c) ->
  ((forall m, bad <> VDict m) -> process_line nlp obj f = Raise TypeError) /\
  (forall m, bad = VDict m -> m !! "from" = None ->
     process_line nlp obj f = Raise (KeyError "from")) /\
  (forall m from, bad = VDict m -> m !! "from" = Some from ->
     is_role from = true -> m !! "value" = None ->
     process_line nlp obj f = Raise (KeyError "value")).
Proof.
  intros Hc Hpre.
  assert (Hstep : forall e, process_turn nlp bad c = Raise e ->
                            process_line nlp obj f = Raise e).
  { intros e Hbad. apply process_line_raise.
    rewrite (enrich_list _ _ Hc), process_turns_app, Hpre. simpl.
    rewrite Hbad. reflexivity. }
  split; [|split].
  - intros Hnd. apply Hstep. unfold process_turn.
    destruct bad as [| | | | |l|m]; try reflexivity.
    exfalso. apply (Hnd m). reflexivity.
  - intros m -> Hf. apply Hstep. unfold process_turn. simpl.
    rewrite Hf. reflexivity.
  - intros m from -> Hf Hr Hv. apply Hstep. unfold process_turn. simpl.
    rewrite Hf. simpl. rewrite Hr, Hv. reflexivity.
Qed.

(** X16: when ["conversations"] is not a list.  A number, a boolean or
    [None] cannot be iterated: [TypeError].  A non-empty string or dict is
    iterated, but its items are strings, which have no ["from"]:
    [TypeError].  An empty string, dict or list has no turn: the record is
    emitted, whatever the filter flag, with total 0 and [is_complex]
    false. *)
Theorem multi_turn_conversations_not_turns
    (obj : gmap string value) (conversations : value) (f : bool) :
  obj !! "conversations" = Some conversations ->
  (match conversations with
   | VNone | VBool _ | VInt _ | VFloat _ => True
   | _ => False
   end -> process_line nlp obj f = Raise TypeError) /\
  (match conversations with
   | VStr s => s <> EmptyString
   | VDict m => m <> ∅
   | _ => False
   end -> process_line nlp obj f = Raise TypeError) /\
  (match conversations with
   | VStr s => s = EmptyString
   | VDict m => m = ∅
   | VList l => l = []
   | _ => False
   end ->
   process_line nlp obj f
     = Ok (Some (<["is_complex" := VBool false]>
                 (<["total_conversation_complexity" := VInt 0]> obj)))).
Proof.
  intros Hc. split; [|split].
  - intros H. apply process_line_raise. unfold enrich. rewrite Hc.
    destruct conversations; try contradiction; reflexivity.
  - intros H. apply process_line_raise. unfold enrich. rewrite Hc.
    destruct conversations as [| | | |s|l|m]; try contradiction.
    + destruct s as [|ch s]; [congruence|]. reflexivity.
    + unfold process_conversations. simpl.
      destruct (map_to_list m) as [|[k v] rest] eqn:E.
      * apply map_to_list_empty_iff in E. contradiction.
      * reflexivity.
  - intros H.
    assert (E : enrich nlp obj
                = Ok (<["is_complex" := VBool false]>
                      (<["total_conversation_complexity" := VInt 0]> obj))).
    { unfold enrich. rewrite Hc.
      assert (process_conversations nlp conversations = Ok (conversations, 0))
        as ->.
      { destruct conversations as [| | | |s|l|m]; try contradiction; subst.
        - reflexivity.
        - reflexivity.
        - unfold process_conversations. simpl.
          rewrite map_to_list_empty. reflexivity. }
      simpl. rewrite (insert_id obj "conversations" conversations Hc).
      reflexivity. }
    rewrite (process_line_enriched _ _ false f E (lookup_insert_eq _ _ _)).
    simpl. rewrite orb_true_r. reflexivity.
Qed.

(** X17: the multi-turn threshold is 64 and the comparison is strict.  A
    record with a ["conversations"] key that is enriched is always emitted
    when filtering is disabled; with filtering enabled it is emitted when
    its total is 64, dropped when its total is 65, and dropped exactly
    when its total is greater than 64. *)
Theorem multi_turn_threshold_is_strict
    (obj obj' : gmap string value) (n : Z) :
  is_Some (obj !! "conversations") ->
  enrich nlp obj = Ok obj' ->
  obj' !! "total_conversation_complexity" = Some (VInt n) ->
  COMPLEXITY_THRESHOLD = 64 /\
  process_line nlp obj false = Ok (Some obj') /\
  (n = 64 -> process_line nlp obj true = Ok (Some obj')) /\
  (n = 65 -> process_line nlp obj true = Ok None) /\
  (process_line nlp obj true = Ok None <-> 64 < n).
Proof.
  intros [conversations Hc] E Hn.
  destruct (enrich_conversations nlp _ _ _ Hc E) as (c' & c & _ & Hobj').
  assert (c = n) as ->.
  { rewrite Hobj' in Hn. rewrite lookup_insert_ne in Hn by done.
    rewrite lookup_insert_eq in Hn. congruence. }
  assert (Hb : obj' !! "is_complex" = Some (VBool (n >? COMPLEXITY_THRESHOLD))).
  { rewrite Hobj'. apply lookup_insert_eq. }
  rewrite !(process_line_enriched _ _ _ _ E Hb). simpl.
  split; [reflexivity|]. split; [reflexivity|]. split; [|split].
  - intros ->. reflexivity.
  - intros ->. reflexivity.
  - unfold COMPLEXITY_THRESHOLD. destruct (n >? 64) eqn:G; simpl.
    + apply Z.gtb_lt in G. split; [lia | reflexivity].
    + rewrite Z.gtb_ltb in G. apply Z.ltb_ge in G.
      split; [discriminate | lia].
Qed.

(** X18: an emitted record agrees with the input outside the keys
    [conversations], [total_conversation_complexity] and [is_complex]; a
    record without ["conversations"] is emitted as it is; a record with it
    has the keys of the input plus these three. *)
Theorem multi_turn_frame (obj out : gmap string value) (f : bool) :
  process_line nlp obj f = Ok (Some out) ->
  (forall k, k ∉ conversation_keys -> out !! k = obj !! k) /\
  (obj !! "conversations" = None -> out = obj) /\
  (is_Some (obj !! "conversations") ->
   dom out = dom obj ∪ conversation_keys).
Proof.
  intros Hout. apply process_line_emitted in Hout.
  destruct (obj !! "conversations") as [conversations|] eqn:Hc.
  - destruct (enrich_conversations nlp _ _ _ Hc Hout) as (c' & c & _ & ->).
    split; [|split].
    + intros k Hk. unfold conversation_keys in Hk.
      assert (k ≠ "conversations" /\ k ≠ "total_conversation_complexity"
              /\ k ≠ "is_complex") as (N1 & N2 & N3).
      { repeat split; intros ->; apply Hk;
          rewrite !elem_of_union, !elem_of_singleton; auto. }
      rewrite !lookup_insert_ne by congruence. reflexivity.
    + discriminate.
    + intros _. rewrite !dom_insert_L. unfold conversation_keys.
      apply set_eq. intros k.
      rewrite !elem_of_union, !elem_of_singleton. tauto.
  - rewrite (enrich_no_conversations nlp _ Hc) in Hout.
    injection Hout as <-. split; [|split].
    + reflexivity.
    + reflexivity.
    + intros [? [=]].
Qed.

Lemma process_turn_again turn c turn' c' :
  process_turn nlp turn c = Ok (turn', c') ->
  forall c0, process_turn nlp turn' c0 = Ok (turn', c0 + (c' - c)).
Proof.
  intros H c0.
  destruct (process_turn_inv _ _ _ _ H)
    as (m & from & -> & Hf &
        [(_ & P & -> & ->)|(Q & _ & text & doc & Hv & Hn & -> & ->)]).
  - assert (Hone : process_turns nlp [VDict m] c0 = Ok ([VDict m], c0))
      by (apply process_turns_passed_over; constructor; [exact P|constructor]).
    simpl in Hone.
    destruct (process_turn nlp (VDict m) c0) as [[t c1]|e]; simpl in Hone;
      [|discriminate].
    injection Hone as -> ->. f_equal. f_equal. lia.
  - unfold qualifies in Q. rewrite Hf, Hv in Q.
    apply andb_true_iff in Q as [Hr Ht].
    unfold process_turn, analyze_complexity. simpl.
    rewrite !lookup_insert_ne by done. rewrite Hf. simpl. rewrite Hr, Hv.
    simpl. rewrite Ht, Hn. simpl. rewrite insert_insert_eq.
    f_equal. f_equal. unfold analyze_doc, set_is_complex. simpl. lia.
Qed.

Lemma process_turns_again turns : forall c0 turns' c,
  process_turns nlp turns c0 = Ok (turns', c) ->
  forall c1, process_turns nlp turns' c1 = Ok (turns', c1 + (c - c0)).
Proof.
  induction turns as [|t turns IH]; intros c0 turns' c; simpl.
  - intros [= <- <-] c1. simpl. f_equal. f_equal. lia.
  - destruct (process_turn nlp t c0) as [[t' ca]|e] eqn:Ht; simpl;
      [|discriminate].
    destruct (process_turns nlp turns ca) as [[rest' cb]|e] eqn:Hr; simpl;
      [|discriminate].
    intros [= <- <-] c1. simpl.
    rewrite (process_turn_again _ _ _ _ Ht c1). simpl.
    rewrite (IH _ _ _ Hr (c1 + (ca - c0))). simpl.
    f_equal. f_equal. lia.
Qed.

Lemma process_conversations_again conversations conversations' c :
  process_conversations nlp conversations = Ok (conversations', c) ->
  process_conversations nlp conversations' = Ok (conversations', c).
Proof.
  unfold process_conversations.
  destruct (iterate conversations) as [turns|e] eqn:Hi; simpl; [|discriminate].
  destruct (process_turns nlp turns 0) as [[turns' c1]|e] eqn:Ht; simpl;
    [|discriminate].
  destruct conversations as [| | | |s|l|m]; intros [= <- <-];
    try (rewrite Hi; simpl; rewrite Ht; reflexivity).
  simpl in Hi. injection Hi as <-. simpl.
  rewrite (process_turns_again _ _ _ _ Ht 0). simpl.
  f_equal. f_equal. lia.
Qed.

(** X19: enriching is idempotent in the multi-turn variant too: an emitted
    record, given to [process_line] again, is emitted again and is the
    same record. *)
Theorem multi_turn_idempotent (obj out : gmap string value) (f : bool) :
  process_line nlp obj f = Ok (Some out) ->
  process_line nlp out f = Ok (Some out).
Proof.
  intros Hout. pose proof (process_line_emitted _ _ _ Hout) as E.
  assert (E' : enrich nlp out = Ok out).
  { destruct (obj !! "conversations") as [conversations|] eqn:Hc.
    - destruct (enrich_conversations nlp _ _ _ Hc E) as (c' & c & Hp & ->).
      unfold enrich. rewrite !lookup_insert_ne by done.
      rewrite lookup_insert_eq, (process_conversations_again _ _ _ Hp).
      simpl. f_equal. insert_cases.
    - rewrite (enrich_no_conversations nlp _ Hc) in E. injection E as <-.
      apply enrich_no_conversations, Hc. }
  unfold process_line in *. rewrite E in Hout. rewrite E'. exact Hout.
Qed.

End MultiTurnFurther.

(** ** Lines that are not a JSON object *)

Section ParsedLineFacts.

Import Scorer Spec Vocabulary ParsedLine.

Variable nlp : value -> result Doc.


(** X21: the single-field [process_line] raises [TypeError] on every line
    whose JSON value is not an object, whatever the filter flag and the
    annotator: a list or a string cannot be assigned a key, and a number,
    a boolean or [null] cannot be searched for ["text"]. *)
Theorem single_field_rejects_non_objects (obj : value) (f : bool) :
  (forall m, obj <> VDict m) ->
  single_field_process_line nlp obj f = Raise TypeError.
Proof.
  intros Hnd. unfold single_field_process_line.
  destruct obj as [| | | |s|l|m]; try reflexivity.
  - simpl. destruct (is_substring SingleField.ANALYZE_FIELD s); reflexivity.
  - simpl. destruct (existsb _ l); reflexivity.
  - exfalso. apply (Hnd m). reflexivity.
Qed.

End ParsedLineFacts.

(** ** Token roles, substrings, and lines that are not objects *)

Section TokenFacts.

Import Scorer Spec Vocabulary ParsedLine.

Lemma prefix_spec (k s : string) :
  String.prefix k s = true <-> exists post, s = k +:+ post.
Proof.
  revert s. induction k as [|c k IH]; intros s; simpl.
  - split; [intros _; exists s; reflexivity | intros _; destruct s; reflexivity].
  - destruct s as [|c' s]; simpl.
    + split; [discriminate | intros [post [=]]].
    + destruct (Ascii.ascii_dec c c') as [->|N].
      * rewrite IH. split; intros [post E]; exists post.
        -- simpl. rewrite E. reflexivity.
        -- simpl in E. injection E as E. exact E.
      * split; [discriminate|]. intros [post E]. simpl in E.
        injection E as E _. congruence.
Qed.

(** [is_substring] decides [contains]. *)
Lemma is_substring_spec (k s : string) :
  is_substring k s = true <-> contains s k.
Proof.
  unfold contains. induction s as [|c s IH]; cbn [is_substring].
  - rewrite orb_false_r, prefix_spec. split.
    + intros [post E]. exists EmptyString, post. exact E.
    + intros ([|c pre] & post & E); [exists post; exact E | discriminate].
  - rewrite orb_true_iff, prefix_spec, IH. split.
    + intros [[post E]|(pre & post & E)].
      * exists EmptyString, post. exact E.
      * exists (String c pre), post. simpl. rewrite E. reflexivity.
    + intros ([|c' pre] & post & E).
      * left. exists post. exact E.
      * right. simpl in E. injection E as _ E. exists pre, post. exact E.
Qed.






Lemma list_has_str_spec (k : string) (l : list value) :
  existsb (fun x => match x with
                    | VStr s => String.eqb s k
                    | _ => false
                    end) l = true
  <-> In (VStr k) l.
Proof.
  rewrite existsb_exists. split.
  - intros (x & Hx & E). destruct x; try discriminate.
    apply String.eqb_eq in E. subst. exact Hx.
  - intros H. exists (VStr k). split; [exact H | apply String.eqb_refl].
Qed.

(** X22: the multi-turn [process_line] on a line that is not an object.
    With filtering enabled it raises [TypeError].  With filtering disabled
    it either raises [TypeError] or writes the value back unchanged, and it
    writes it back exactly for a list that has no item ["conversations"]
    and for a string that does not contain [conversations]. *)
Theorem multi_turn_on_non_objects
    (nlp : value -> result Doc) (obj : value) :
  (forall m, obj <> VDict m) ->
  multi_turn_process_line nlp obj true = Raise TypeError /\
  (multi_turn_process_line nlp obj false = Ok (Some obj) \/
   multi_turn_process_line nlp obj false = Raise TypeError) /\
  (multi_turn_process_line nlp obj false = Ok (Some obj) <->
   (exists l, obj = VList l /\ ~ In (VStr "conversations") l) \/
   (exists s, obj = VStr s /\ ~ contains s "conversations")).
Proof.
  intros Hnd. unfold multi_turn_process_line.
  destruct obj as [| | | |s|l|m].
  1-4: (split; [reflexivity|]; split; [right; reflexivity|];
        split; [discriminate | intros [(? & [=] & _)|(? & [=] & _)]]).
  - simpl. pose proof (is_substring_spec "conversations" s) as Hs.
    destruct (is_substring "conversations" s); simpl.
    + split; [reflexivity|]. split; [right; reflexivity|]. split; [discriminate|].
      intros [(? & [=] & _)|(s' & [= <-] & Hn)]. exfalso. apply Hn, Hs.
      reflexivity.
    + split; [reflexivity|]. split; [left; reflexivity|].
      split; [|reflexivity]. intros _. right. exists s. split; [reflexivity|].
      intros Hc. apply Hs in Hc. discriminate.
  - simpl. pose proof (list_has_str_spec "conversations" l) as Hl.
    destruct (existsb _ l); simpl.
    + split; [reflexivity|]. split; [right; reflexivity|]. split; [discriminate|].
      intros [(l' & [= <-] & Hn)|(? & [=] & _)]. exfalso. apply Hn, Hl.
      reflexivity.
    + split; [reflexivity|]. split; [left; reflexivity|].
      split; [|reflexivity]. intros _. left. exists l. split; [reflexivity|].
      intros Hc. apply Hl in Hc. discriminate.
  - exfalso. apply (Hnd m). reflexivity.
Qed.

End TokenFacts.

(** ** The further statements on sample inputs *)

Section FurtherInstances.

Import Scorer Spec Vocabulary Samples MoreSamples.

Lemma maxima_are_attained_bounds_witness :
  (exists sent, In sent passive_doc /\
     max_nested_clauses (analyze_doc passive_doc) = count_if is_clause sent) /\
  (exists sent, In sent passive_doc /\
     longest_sentence (analyze_doc passive_doc) = Z.of_nat (length sent)) /\
  (exists sent, In sent passive_doc /\
     num_participle_phrases (analyze_doc passive_doc)
       = count_if is_participle sent).
Proof.
  apply (proj1 (proj2 (maxima_are_attained_bounds passive_doc))).
  discriminate.
Defined.

Lemma analysis_independent_of_sentence_order_witness :
  Permutation passive_doc (rev passive_doc) /\
  score (analyze_doc passive_doc) = score (analyze_doc (rev passive_doc)) /\
  Permutation (reasons (analyze_doc passive_doc))
    (reasons (analyze_doc (rev passive_doc))).
Proof.
  assert (H : Permutation passive_doc (rev passive_doc))
    by apply Permutation_rev.
  pose proof (analysis_independent_of_sentence_order passive_doc
                (rev passive_doc) H) as (Hs & _ & _ & _ & _ & _ & _ & Hr).
  split; [exact H|]. split; [exact Hs | exact Hr].
Defined.

Lemma single_field_filter_only_drops_witness :
  SingleField.process_line (parse_as (long_doc 131)) text_record true = Ok None /\
  exists out,
    SingleField.process_line (parse_as (long_doc 131)) text_record false
      = Ok (Some out) /\
    out !! "is_complex" = Some (VBool true).
Proof.
  assert (H : SingleField.process_line (parse_as (long_doc 131)) text_record
                true = Ok None) by reflexivity.
  split; [exact H|].
  apply (proj2 (proj2 (single_field_filter_only_drops
                         (parse_as (long_doc 131)) text_record)) H).
Defined.

Lemma single_field_record_fields_consistent_witness :
  let out :=
    SingleField.set_totals
      (<["complexity_analysis" :=
           VDict (analysis_dict (analyze_doc participle_doc))]> text_record) 1 in
  exists (d : gmap string value) (s : Z) (b : bool),
    out !! "complexity_analysis" = Some (VDict d) /\
    d !! "score" = Some (VInt s) /\
    d !! "is_complex" = Some (VBool b) /\
    out !! "total_complexity_score" = Some (VInt s) /\
    out !! "is_complex"
      = Some (VBool (s >? SingleField.COMPLEXITY_THRESHOLD)) /\
    0 <= s /\
    (b = true <-> 0 < s) /\
    ((s >? SingleField.COMPLEXITY_THRESHOLD) = true -> b = true).
Proof.
  intros out.
  apply (single_field_record_fields_consistent (parse_as participle_doc)
           text_record out false).
  reflexivity.
Defined.


Lemma single_field_idempotent_witness :
  let out :=
    SingleField.set_totals
      (<["complexity_analysis" :=
           VDict (analysis_dict (analyze_doc participle_doc))]> text_record) 1 in
  SingleField.process_line (parse_as participle_doc) text_record true
    = Ok (Some out) /\
  SingleField.process_line (parse_as participle_doc) out true = Ok (Some out).
Proof.
  intros out.
  assert (H : SingleField.process_line (parse_as participle_doc) text_record
                true = Ok (Some out)) by reflexivity.
  split; [exact H|].
  apply (single_field_idempotent (parse_as participle_doc) text_record out
           true H).
Defined.


End FurtherInstances.

Section MultiTurnInstances.

Import Scorer Spec Vocabulary Samples MoreSamples.

Lemma multi_turn_total_is_sum_of_turn_scores_witness :
  exists out turns',
    MultiTurn.process_line (parse_as passive_doc)
      (record_of (VList [human_turn; system_turn; human_turn])) true
      = Ok (Some out) /\
    out !! "conversations" = Some (VList turns') /\
    length turns' = 3%nat /\
    out !! "total_conversation_complexity" = Some (VInt 6) /\
    out !! "is_complex" = Some (VBool false).
Proof.
  eexists.
  assert (H : forall out,
            MultiTurn.process_line (parse_as passive_doc)
              (record_of (VList [human_turn; system_turn; human_turn])) true
              = Ok (Some out) ->
            exists turns',
              MultiTurn.process_line (parse_as passive_doc)
                (record_of (VList [human_turn; system_turn; human_turn])) true
                = Ok (Some out) /\
              out !! "conversations" = Some (VList turns') /\
              length turns' = 3%nat /\
              out !! "total_conversation_complexity" = Some (VInt 6) /\
              out !! "is_complex" = Some (VBool false)).
  { intros out Hout.
    destruct (multi_turn_total_is_sum_of_turn_scores (parse_as passive_doc)
                (record_of (VList [human_turn; system_turn; human_turn]))
                out [human_turn; system_turn; human_turn] true eq_refl Hout)
      as (turns' & H1 & H2 & H3 & _ & H5 & _).
    exists turns'. split; [exact Hout|]. split; [exact H1|].
    split; [exact H2|].
    assert (sum_analysed [human_turn; system_turn; human_turn] turns' = 6)
      as E.
    { vm_compute in Hout. injection Hout as <-.
      vm_compute in H1. injection H1 as <-. reflexivity. }
    rewrite E in H3, H5. split; [exact H3 | exact H5]. }
  apply H. reflexivity.
Defined.

Lemma multi_turn_passes_over_other_turns_witness :
  MultiTurn.process_line no_annotator
    (record_of (VList [system_turn; silent_turn])) true
  = Ok (Some (<["is_complex" := VBool false]>
              (<["total_conversation_complexity" := VInt 0]>
               (record_of (VList [system_turn; silent_turn]))))).
Proof.
  apply (multi_turn_passes_over_other_turns no_annotator
           (record_of (VList [system_turn; silent_turn]))
           [system_turn; silent_turn] true).
  - reflexivity.
  - repeat constructor.
Defined.

Lemma multi_turn_malformed_turn_aborts_witness :
  MultiTurn.process_line (parse_as passive_doc)
    (record_of (VList [system_turn; VStr "Hi"; human_turn])) false
    = Raise TypeError /\
  MultiTurn.process_line (parse_as passive_doc)
    (record_of (VList [system_turn; anonymous_turn; human_turn])) false
    = Raise (KeyError "from") /\
  MultiTurn.process_line (parse_as passive_doc)
    (record_of (VList [system_turn; mute_turn; human_turn])) false
    = Raise (KeyError "value").
Proof.
  split; [|split].
  - apply (proj1 (multi_turn_malformed_turn_aborts (parse_as passive_doc)
                    (record_of (VList [system_turn; VStr "Hi"; human_turn]))
                    [system_turn] [human_turn] [system_turn] (VStr "Hi") 0
                    false eq_refl eq_refl)).
    discriminate.
  - apply (proj1 (proj2 (multi_turn_malformed_turn_aborts
                    (parse_as passive_doc)
                    (record_of (VList [system_turn; anonymous_turn; human_turn]))
                    [system_turn] [human_turn] [system_turn] anonymous_turn 0
                    false eq_refl eq_refl))
             (<["value" := VStr "Hi"]> ∅)); reflexivity.
  - apply (proj2 (proj2 (multi_turn_malformed_turn_aborts
                    (parse_as passive_doc)
                    (record_of (VList [system_turn; mute_turn; human_turn]))
                    [system_turn] [human_turn] [system_turn] mute_turn 0
                    false eq_refl eq_refl))
             (<["from" := VStr "human"]> ∅) (VStr "human")); reflexivity.
Defined.

Lemma multi_turn_conversations_not_turns_witness :
  MultiTurn.process_line (parse_as passive_doc) (record_of (VInt 3)) false
    = Raise TypeError /\
  MultiTurn.process_line (parse_as passive_doc) (record_of (VStr "Hi")) false
    = Raise TypeError /\
  MultiTurn.process_line (parse_as passive_doc) (record_of (VList [])) true
    = Ok (Some (<["is_complex" := VBool false]>
                (<["total_conversation_complexity" := VInt 0]>
                 (record_of (VList []))))).
Proof.
  split; [|split].
  - apply (proj1 (multi_turn_conversations_not_turns (parse_as passive_doc)
                    (record_of (VInt 3)) (VInt 3) false eq_refl)).
    exact I.
  - apply (proj1 (proj2 (multi_turn_conversations_not_turns
                    (parse_as passive_doc)
                    (record_of (VStr "Hi")) (VStr "Hi") false eq_refl))).
    discriminate.
  - apply (proj2 (proj2 (multi_turn_conversations_not_turns
                    (parse_as passive_doc)
                    (record_of (VList [])) (VList []) true eq_refl))).
    reflexivity.
Defined.

Lemma multi_turn_threshold_is_strict_witness :
  (exists obj',
     MultiTurn.enrich (parse_as (long_doc 66)) (record_of (VList [human_turn]))
       = Ok obj' /\
     obj' !! "total_conversation_complexity" = Some (VInt 64) /\
     MultiTurn.process_line (parse_as (long_doc 66))
       (record_of (VList [human_turn])) true = Ok (Some obj')) /\
  (exists obj',
     MultiTurn.enrich (parse_as (long_doc 67)) (record_of (VList [human_turn]))
       = Ok obj' /\
     obj' !! "total_conversation_complexity" = Some (VInt 65) /\
     MultiTurn.process_line (parse_as (long_doc 67))
       (record_of (VList [human_turn])) true = Ok None /\
     MultiTurn.process_line (parse_as (long_doc 67))
       (record_of (VList [human_turn])) false = Ok (Some obj')).
Proof.
  split.
  - eexists. split; [reflexivity|]. split; [reflexivity|].
    refine (proj1 (proj2 (proj2 (multi_turn_threshold_is_strict
              (parse_as (long_doc 66)) (record_of (VList [human_turn])) _ 64
              _ eq_refl eq_refl))) eq_refl).
    eexists. reflexivity.
  - eexists. split; [reflexivity|]. split; [reflexivity|]. split.
    + refine (proj1 (proj2 (proj2 (proj2 (multi_turn_threshold_is_strict
                (parse_as (long_doc 67)) (record_of (VList [human_turn])) _ 65
                _ eq_refl eq_refl)))) eq_refl).
      eexists. reflexivity.
    + refine (proj1 (proj2 (multi_turn_threshold_is_strict
                (parse_as (long_doc 67)) (record_of (VList [human_turn])) _ 65
                _ eq_refl eq_refl))).
      eexists. reflexivity.
Defined.

Lemma multi_turn_frame_witness :
  exists out,
    MultiTurn.process_line (parse_as passive_doc) chat_record false
      = Ok (Some out) /\
    (forall k, k ∉ conversation_keys -> out !! k = chat_record !! k) /\
    dom out = dom chat_record ∪ conversation_keys.
Proof.
  eexists. split; [reflexivity|].
  refine ((fun H => conj (proj1 H) (proj2 (proj2 H) _))
            (multi_turn_frame (parse_as passive_doc) chat_record _ false
               eq_refl)).
  eexists. reflexivity.
Defined.

Lemma multi_turn_idempotent_witness :
  exists out,
    MultiTurn.process_line (parse_as passive_doc) chat_record true
      = Ok (Some out) /\
    MultiTurn.process_line (parse_as passive_doc) out true = Ok (Some out).
Proof.
  eexists. split; [reflexivity|].
  apply (multi_turn_idempotent (parse_as passive_doc) chat_record _ true).
  reflexivity.
Defined.

Lemma single_field_rejects_non_objects_witness :
  ParsedLine.single_field_process_line (parse_as passive_doc)
    (VList [VStr "text"]) false = Raise TypeError.
Proof.
  apply (single_field_rejects_non_objects (parse_as passive_doc)
           (VList [VStr "text"]) false).
  discriminate.
Defined.

Lemma multi_turn_on_non_objects_witness :
  ParsedLine.multi_turn_process_line (parse_as passive_doc)
    (VList [VInt 1; VInt 2]) true = Raise TypeError /\
  ParsedLine.multi_turn_process_line (parse_as passive_doc)
    (VList [VInt 1; VInt 2]) false = Ok (Some (VList [VInt 1; VInt 2])).
Proof.
  pose proof (multi_turn_on_non_objects (parse_as passive_doc)
                (VList [VInt 1; VInt 2])) as H.
  destruct H as (H1 & _ & H3); [discriminate|].
  split; [exact H1|]. apply H3. left. exists [VInt 1; VInt 2].
  split; [reflexivity|]. simpl. intros [E|[E|[]]]; discriminate.
Defined.

End MultiTurnInstances.
